(** * The form-submission controller ([useFormSubmission])

    A shallow embedding of the retry hook of the repository
    (hooks/useFormSubmission.js) and of the part of the form component that
    calls it (components/TransactionForm.js), with the properties the design
    document states about them.

    - Module [JS]: the JavaScript values that travel through the hook
      (payloads, responses, rejection values) and the operators
      [isRetryable] applies to them.
    - Section [Controller]: the two callbacks [submit] and [reset], written
      as programs over the hook's effects (the ref, the four state setters,
      the two [await]s), and a scheduler that runs them.  An event is a
      call of [submit] or [reset], a timer firing, or the endpoint settling
      a request; a callback runs from one [await] to the next without
      interruption, as on the JavaScript event loop.
    - The invariant of the scheduler, then the properties. *)

From Stdlib Require Import ZArith QArith List String Bool Lia.
From Stdlib Require Import DecimalString.
Import ListNotations.
Open Scope string_scope.
Open Scope list_scope.
Open Scope Z_scope.

(* ================================================================== *)
(** ** JavaScript values *)
(* ================================================================== *)

Module JS.

(** A JavaScript number: a finite double is a rational; the three
    non-finite doubles are kept apart. *)
Inductive number : Type :=
| Finite (q : Q)
| NaN
| PosInfinity
| NegInfinity.

(** The data values an endpoint can resolve or reject with.  An object is
    the list of its fields, first binding wins (arrays and [Error] instances
    are objects too).  Callables are not data and are left out (a state
    setter would call one instead of storing it). *)
#[warnings="-register-all"]
Inductive value : Type :=
| JUndefined
| JNull
| JBool (b : bool)
| JNumber (n : number)
| JString (s : string)
| JObject (fields : list (string * value)).

Definition num (z : Z) : value := JNumber (Finite (inject_Z z)).

(** [typeof v] *)
Definition typeof (v : value) : string :=
  match v with
  | JUndefined => "undefined"
  | JNull => "object"
  | JBool _ => "boolean"
  | JNumber _ => "number"
  | JString _ => "string"
  | JObject _ => "object"
  end.

(** ToBoolean: the condition of [if], [&&] and [||]. *)
Definition truthy (v : value) : bool :=
  match v with
  | JUndefined | JNull => false
  | JBool b => b
  | JNumber (Finite q) => negb (Qeq_bool q 0)
  | JNumber NaN => false
  | JNumber _ => true
  | JString s => negb (String.eqb s "")
  | JObject _ => true
  end.

Definition number_eqb (a b : number) : bool :=
  match a, b with
  | Finite p, Finite q => Qeq_bool p q
  | PosInfinity, PosInfinity => true
  | NegInfinity, NegInfinity => true
  | _, _ => false
  end.

(** [a === b] where [b] is a primitive (the only use in the hook compares
    with a number literal and with a string literal).  An object is never
    strictly equal to a primitive. *)
Definition strict_equals (a b : value) : bool :=
  match a, b with
  | JUndefined, JUndefined => true
  | JNull, JNull => true
  | JBool x, JBool y => Bool.eqb x y
  | JNumber x, JNumber y => number_eqb x y
  | JString x, JString y => String.eqb x y
  | _, _ => false
  end.

Fixpoint lookup (name : string) (fields : list (string * value)) : option value :=
  match fields with
  | [] => None
  | (k, v) :: rest => if String.eqb k name then Some v else lookup name rest
  end.

(** [v.name]: a TypeError ([None]) on [undefined] and [null], [undefined]
    for a missing field and for the primitives (whose wrappers have no such
    field). *)
Definition member (v : value) (name : string) : option value :=
  match v with
  | JUndefined | JNull => None
  | JObject fields =>
      Some (match lookup name fields with Some x => x | None => JUndefined end)
  | _ => Some JUndefined
  end.

(** [function isRetryable(err) {
       return err && typeof err === 'object' && err.status === 503; }]

    [a && b] evaluates [b] only when [a] is truthy and is [a] otherwise; the
    result is [None] if evaluating it throws. *)
Definition isRetryable (err : value) : option value :=
  if truthy err then
    if strict_equals (JString (typeof err)) (JString "object") then
      match member err "status" with
      | Some status => Some (JBool (strict_equals status (num 503)))
      | None => None
      end
    else Some (JBool false)
  else Some err.

(** The design document's wording: the error carries the structured
    "service temporarily unavailable" indicator, an object whose [status]
    field is the number 503. *)
Definition carries_unavailable_indicator (e : value) : Prop :=
  exists fields q,
    e = JObject fields /\
    lookup "status" fields = Some (JNumber (Finite q)) /\
    (q == 503)%Q.

(** What the [catch] clause tests: the result of [isRetryable] as a
    condition. *)
Definition retryable (e : value) : bool :=
  match isRetryable e with
  | Some r => truthy r
  | None => false
  end.

Definition unavailable : value :=
  JObject [("status", num 503); ("message", JString "Service temporarily unavailable")].

Definition bad_request : value :=
  JObject [("status", num 400); ("message", JString "Bad Request")].

End JS.

Import JS.

(* ================================================================== *)
(** ** The hook *)
(* ================================================================== *)

Inductive SubmissionStatus : Type := IDLE | PENDING | RETRYING | SUCCESS | ERROR.

(** How the promise returned by [submitForm] settles. *)
Inductive outcome : Type :=
| Resolved (response : value)
| Rejected (err : value).

(** How the promise returned by a call of [submit] settles. *)
Inductive settled : Type :=
| Fulfilled (v : value)
| RejectedWith (e : value).

(** The body of a callback of the hook: the effects it performs, in order.
    [GetInFlight]/[SetInFlight] read and write [inFlightRef.current], the
    four setters are those of [useState], [AwaitSleep] is
    [await sleep(ms)] and [AwaitSubmitForm] is [await submitForm(payload)]:
    the call is made, the callback is suspended, and it goes on with the
    way the promise settled. *)
Inductive prog : Type :=
| Return (v : value)
| Throw (e : value)
| GetInFlight (k : bool -> prog)
| SetInFlight (b : bool) (k : prog)
| SetStatus (s : SubmissionStatus) (k : prog)
| SetRetryCount (n : Z) (k : prog)
| SetError (e : value) (k : prog)
| SetResult (r : value) (k : prog)
| AwaitSleep (ms : Z) (k : prog)
| AwaitSubmitForm (payload : value) (k : outcome -> prog).

(** [try { body } catch (err) { handler err }]: a [return] leaves through
    the clause, a [throw] of the body enters it. *)
Fixpoint try_catch (body : prog) (handler : value -> prog) : prog :=
  match body with
  | Return v => Return v
  | Throw e => handler e
  | GetInFlight k => GetInFlight (fun b => try_catch (k b) handler)
  | SetInFlight b k => SetInFlight b (try_catch k handler)
  | SetStatus s k => SetStatus s (try_catch k handler)
  | SetRetryCount n k => SetRetryCount n (try_catch k handler)
  | SetError e k => SetError e (try_catch k handler)
  | SetResult r k => SetResult r (try_catch k handler)
  | AwaitSleep ms k => AwaitSleep ms (try_catch k handler)
  | AwaitSubmitForm p k => AwaitSubmitForm p (fun o => try_catch (k o) handler)
  end.

(** [try { body } finally { cleanup }]: the cleanup runs before the
    [return] or the [throw] that ends the body takes effect. *)
Fixpoint try_finally (body : prog) (cleanup : prog -> prog) : prog :=
  match body with
  | Return v => cleanup (Return v)
  | Throw e => cleanup (Throw e)
  | GetInFlight k => GetInFlight (fun b => try_finally (k b) cleanup)
  | SetInFlight b k => SetInFlight b (try_finally k cleanup)
  | SetStatus s k => SetStatus s (try_finally k cleanup)
  | SetRetryCount n k => SetRetryCount n (try_finally k cleanup)
  | SetError e k => SetError e (try_finally k cleanup)
  | SetResult r k => SetResult r (try_finally k cleanup)
  | AwaitSleep ms k => AwaitSleep ms (try_finally k cleanup)
  | AwaitSubmitForm p k => AwaitSubmitForm p (fun o => try_finally (k o) cleanup)
  end.

(** The ref and the four pieces of state of one instance of the hook; a
    state field holds the last value given to its setter. *)
Record hook : Type := mkHook {
  inFlightRef : bool;
  status : SubmissionStatus;
  retryCount : Z;
  error : value;
  result : value
}.

Definition mounted : hook :=
  {| inFlightRef := false; status := IDLE; retryCount := 0;
     error := JNull; result := JNull |}.

(** What a [TypeError] raised by the engine looks like to [catch]. *)
Definition type_error : value := JObject [("name", JString "TypeError")].

(** The payload of the form for one payment, and an answer of the
    endpoint to it. *)
Definition payment : value :=
  JObject [("email", JString "test@example.com"); ("amount", num 100);
           ("idempotencyKey", JString "txn_1")].

Definition receipt : value :=
  JObject [("success", JBool true);
           ("data", JObject [("id", JString "test-id-123")])].

(** Payloads for the two addresses the mock treats apart. *)
Definition error_payment : value :=
  JObject [("email", JString "error@example.com"); ("amount", num 10);
           ("idempotencyKey", JString "txn_2")].

Definition retry_payment : value :=
  JObject [("email", JString "retry@example.com"); ("amount", num 50);
           ("idempotencyKey", JString "txn_3")].

Section Controller.

(** [const { maxRetries = 3, retryDelayMs = 750 } = options;] *)
Variable maxRetries : Z.
Variable retryDelayMs : Z.

(** Lines 50-53 after the [await]: a rejection is thrown at the [await]. *)
Definition after_submitForm (o : outcome) : prog :=
  match o with
  | Resolved response =>
      SetResult response (SetStatus SUCCESS (Return response))
  | Rejected err => Throw err
  end.

Definition request (payload : value) : prog :=
  AwaitSubmitForm payload after_submitForm.

(** Lines 44-53, the [try] block of one iteration. *)
Definition attempt_body (payload : value) (attempt : Z) : prog :=
  if 0 <? attempt then
    SetStatus RETRYING
      (SetRetryCount attempt (AwaitSleep retryDelayMs (request payload)))
  else request payload.

(** Lines 54-61, the [catch] clause; [continue] is what [next] does. *)
Definition on_error (next : prog) (attempt : Z) (err : value) : prog :=
  match isRetryable err with
  | None => Throw type_error
  | Some r =>
      if truthy r && (attempt <? maxRetries) then next
      else SetError err (SetStatus ERROR (Throw err))
  end.

(** Lines 42-62, [for (let attempt = 0; attempt <= maxRetries; attempt += 1)]
    entered at [attempt] with [n] iterations left before the test fails;
    after the loop the callback ends without a value. *)
Fixpoint attempts (payload : value) (n : nat) (attempt : Z) : prog :=
  match n with
  | O => Return JUndefined
  | S n' =>
      try_catch (attempt_body payload attempt)
                (on_error (attempts payload n' (attempt + 1)) attempt)
  end.

(** The number of [attempt] values from 0 on that pass
    [attempt <= maxRetries]. *)
Definition iterations : nat := Z.to_nat (maxRetries + 1).

Definition release (k : prog) : prog := SetInFlight false k.

(** Lines 30-68. *)
Definition submit (payload : value) : prog :=
  GetInFlight (fun busy =>
    if busy then Return JUndefined
    else
      SetInFlight true
        (SetError JNull
          (SetResult JNull
            (SetRetryCount 0
              (SetStatus PENDING
                (try_finally (attempts payload iterations 0) release)))))).

(** Lines 70-76. *)
Definition reset : prog :=
  GetInFlight (fun busy =>
    if busy then Return JUndefined
    else
      SetStatus IDLE
        (SetRetryCount 0 (SetError JNull (SetResult JNull (Return JUndefined))))).

(** *** Running a callback *)

Inductive ending : Type :=
| Settled (s : settled)
| Suspended (rest : prog).

(** The result of running a callback up to its next [await]: the hook
    after it, the payloads [submitForm] was called with on the way, and
    whether the callback ended or is suspended (at [rest], whose first
    effect is the [await]). *)
Record ran : Type := mkRan {
  after : hook;
  invoked : list value;
  ended : ending
}.

Fixpoint run (p : prog) (h : hook) : ran :=
  match p with
  | Return v => mkRan h [] (Settled (Fulfilled v))
  | Throw e => mkRan h [] (Settled (RejectedWith e))
  | GetInFlight k => run (k (inFlightRef h)) h
  | SetInFlight b k =>
      run k (mkHook b (status h) (retryCount h) (error h) (result h))
  | SetStatus s k =>
      run k (mkHook (inFlightRef h) s (retryCount h) (error h) (result h))
  | SetRetryCount n k =>
      run k (mkHook (inFlightRef h) (status h) n (error h) (result h))
  | SetError e k =>
      run k (mkHook (inFlightRef h) (status h) (retryCount h) e (result h))
  | SetResult r k =>
      run k (mkHook (inFlightRef h) (status h) (retryCount h) (error h) r)
  | AwaitSleep _ _ => mkRan h [] (Suspended p)
  | AwaitSubmitForm payload _ => mkRan h [payload] (Suspended p)
  end.

(** *** The scheduler *)

(** A call [submit(argument)] that is suspended, with the payloads it has
    called [submitForm] with so far. *)
Record cycle : Type := mkCycle {
  argument : value;
  suspended_at : prog;
  calls : list value
}.

(** A call [submit(given)] whose promise has settled, with the payloads it
    called [submitForm] with. *)
Record finished : Type := mkFinished {
  given : value;
  made : list value;
  settlement : settled
}.

Record config : Type := mkConfig {
  state : hook;
  running : list cycle;
  returned : list finished   (* most recent first *)
}.

Definition start : config := mkConfig mounted [] [].

Inductive event : Type :=
| CallSubmit (payload : value)
| CallReset
| TimerFires (i : nat)                    (* the sleep of the i-th running call ends *)
| RequestSettles (i : nat) (o : outcome). (* the request of the i-th running call settles *)

(** Replace the [i]-th element by [x], or take it out. *)
Fixpoint put {A : Type} (i : nat) (x : option A) (l : list A) : list A :=
  match l, i with
  | [], _ => []
  | _ :: rest, O => match x with Some y => y :: rest | None => rest end
  | a :: rest, S j => a :: put j x rest
  end.

(** Book-keeping after a callback has run up to its next [await] or to its
    end: the call [submit(arg)] had called [submitForm] with [before]. *)
Definition conclude (c : config) (arg : value) (before : list value) (r : ran)
    (place : option cycle -> list cycle) : config :=
  match ended r with
  | Settled s =>
      mkConfig (after r) (place None)
               (mkFinished arg (before ++ invoked r) s :: returned c)
  | Suspended rest =>
      mkConfig (after r)
               (place (Some (mkCycle arg rest (before ++ invoked r))))
               (returned c)
  end.

Definition resume (c : config) (i : nat) (t : cycle) (k : prog) : config :=
  conclude c (argument t) (calls t) (run k (state c))
           (fun x => put i x (running c)).

(** One event; [None] when nothing waits for it. *)
Definition step (c : config) (ev : event) : option config :=
  match ev with
  | CallSubmit payload =>
      Some (conclude c payload [] (run (submit payload) (state c))
              (fun x => match x with
                        | Some t => running c ++ [t]
                        | None => running c
                        end))
  | CallReset =>
      Some (mkConfig (after (run reset (state c))) (running c) (returned c))
  | TimerFires i =>
      match nth_error (running c) i with
      | Some t =>
          match suspended_at t with
          | AwaitSleep _ k => Some (resume c i t k)
          | _ => None
          end
      | None => None
      end
  | RequestSettles i o =>
      match nth_error (running c) i with
      | Some t =>
          match suspended_at t with
          | AwaitSubmitForm _ k => Some (resume c i t (k o))
          | _ => None
          end
      | None => None
      end
  end.

Fixpoint exec (c : config) (evs : list event) : option config :=
  match evs with
  | [] => Some c
  | ev :: rest =>
      match step c ev with
      | Some c' => exec c' rest
      | None => None
      end
  end.

(** The status and the retry count shown after each event of a run. *)
Fixpoint shown (c : config) (evs : list event) : list (SubmissionStatus * Z) :=
  match evs with
  | [] => []
  | ev :: rest =>
      match step c ev with
      | Some c' => (status (state c'), retryCount (state c')) :: shown c' rest
      | None => []
      end
  end.

Inductive reachable : config -> Prop :=
| reachable_start : reachable start
| reachable_step c ev c' :
    reachable c -> step c ev = Some c' -> reachable c'.

(** *** The form component's use of the hook *)

(** [const isBusy = status === PENDING || status === RETRYING;] *)
Definition isBusy (h : hook) : bool :=
  match status h with
  | PENDING | RETRYING => true
  | _ => false
  end.

(** [Number(amount)], a built-in. *)
Variable toNumber : string -> number.

(** [handleSubmit] of the form, for the field contents [email] and [amount]
    and the key [drawn] from [crypto.randomUUID()] (or from the clock and
    [Math.random()]) in this call: the call of [submit] it makes, if any. *)
Definition handleSubmit (email amount drawn : string) : option event :=
  if String.eqb email "" || String.eqb amount "" then None
  else
    Some (CallSubmit
            (JObject [("email", JString email);
                      ("amount", JNumber (toNumber amount));
                      ("idempotencyKey", JString drawn)])).

Definition token (payload : value) : option value :=
  member payload "idempotencyKey".

(** *** Where a call of [submit] can be suspended *)

(** At [await submitForm(payload)] of iteration [attempt], with [n]
    iterations left after this one. *)
Definition at_request (payload : value) (n : nat) (attempt : Z) : prog :=
  try_finally
    (try_catch (request payload)
               (on_error (attempts payload n (attempt + 1)) attempt))
    release.

(** At [await sleep(retryDelayMs)] of iteration [attempt]. *)
Definition at_sleep (payload : value) (n : nat) (attempt : Z) : prog :=
  try_finally
    (try_catch (AwaitSleep retryDelayMs (request payload))
               (on_error (attempts payload n (attempt + 1)) attempt))
    release.

(** A settled call made the same request each time, and no more often
    than the loop has iterations. *)
Definition finished_ok (f : finished) : Prop :=
  exists k, made f = repeat (given f) k /\ (k <= iterations)%nat.

(** One call [submit(payload)] waits for the answer to the request of
    iteration [attempt]. *)
Definition requesting (payload : value) (n : nat) (attempt : Z)
    (done : list finished) : config :=
  mkConfig
    (mkHook true (if attempt =? 0 then PENDING else RETRYING) attempt
            JNull JNull)
    [mkCycle payload (at_request payload n attempt)
             (repeat payload (S (Z.to_nat attempt)))]
    done.

(** One call [submit(payload)] sleeps before the request of iteration
    [attempt]. *)
Definition sleeping (payload : value) (n : nat) (attempt : Z)
    (done : list finished) : config :=
  mkConfig
    (mkHook true RETRYING attempt JNull JNull)
    [mkCycle payload (at_sleep payload n attempt)
             (repeat payload (Z.to_nat attempt))]
    done.

(** The shape of every configuration the scheduler reaches: no call of
    [submit] is suspended and the ref is clear, or exactly one is, at one of
    the two [await]s of some iteration of its loop. *)
Inductive consistent : config -> Prop :=
| consistent_free h done :
    inFlightRef h = false ->
    (0 <= maxRetries -> isBusy h = false) ->
    0 <= retryCount h <= Z.max 0 maxRetries ->
    (error h <> JNull -> status h = ERROR) ->
    (result h <> JNull -> status h = SUCCESS) ->
    Forall finished_ok done ->
    consistent (mkConfig h [] done)
| consistent_requesting done payload n attempt :
    0 <= attempt ->
    Z.of_nat n = maxRetries - attempt ->
    Forall finished_ok done ->
    consistent (requesting payload n attempt done)
| consistent_sleeping done payload n attempt :
    0 < attempt ->
    Z.of_nat n = maxRetries - attempt ->
    Forall finished_ok done ->
    consistent (sleeping payload n attempt done).

(** The configuration after a call of [submit] that the guard turned away:
    only the settled promise of that call is new. *)
Definition turned_away (c : config) (payload : value) : config :=
  mkConfig (state c) (running c)
           (mkFinished payload [] (Fulfilled JUndefined) :: returned c).

(** The moves of the controller between consistent configurations: what
    each event does, by the state the hook is in. *)
Inductive transition : config -> event -> config -> Prop :=
| accept_without_loop c payload :
    running c = [] -> inFlightRef (state c) = false -> iterations = O ->
    transition c (CallSubmit payload)
      (mkConfig (mkHook false PENDING 0 JNull JNull) []
                (mkFinished payload [] (Fulfilled JUndefined) :: returned c))
| accept c payload n :
    running c = [] -> inFlightRef (state c) = false -> iterations = S n ->
    transition c (CallSubmit payload) (requesting payload n 0 (returned c))
| turn_away c payload :
    inFlightRef (state c) = true ->
    transition c (CallSubmit payload) (turned_away c payload)
| clear c :
    running c = [] -> inFlightRef (state c) = false ->
    transition c CallReset
      (mkConfig (mkHook false IDLE 0 JNull JNull) [] (returned c))
| ignore_reset c :
    inFlightRef (state c) = true ->
    transition c CallReset c
| succeed payload n attempt done response :
    0 <= attempt -> Z.of_nat n = maxRetries - attempt ->
    transition (requesting payload n attempt done)
      (RequestSettles 0 (Resolved response))
      (mkConfig (mkHook false SUCCESS attempt JNull response) []
         (mkFinished payload (repeat payload (S (Z.to_nat attempt)))
                     (Fulfilled response) :: done))
| fail payload n attempt done err :
    0 <= attempt -> Z.of_nat n = maxRetries - attempt ->
    retryable err && (attempt <? maxRetries) = false ->
    transition (requesting payload n attempt done)
      (RequestSettles 0 (Rejected err))
      (mkConfig (mkHook false ERROR attempt err JNull) []
         (mkFinished payload (repeat payload (S (Z.to_nat attempt)))
                     (RejectedWith err) :: done))
| retry payload n attempt done err :
    0 <= attempt -> Z.of_nat (S n) = maxRetries - attempt ->
    retryable err = true ->
    transition (requesting payload (S n) attempt done)
      (RequestSettles 0 (Rejected err))
      (sleeping payload n (attempt + 1) done)
| wake payload n attempt done :
    0 < attempt -> Z.of_nat n = maxRetries - attempt ->
    transition (sleeping payload n attempt done) (TimerFires 0)
      (requesting payload n attempt done).

(** The endpoint rejects a request with [e] and the delay before the next
    attempt elapses. *)
Definition retry_round (e : value) : list event :=
  [RequestSettles 0 (Rejected e); TimerFires 0].

(** The payloads of the calls of [submit] that reached the endpoint, oldest
    first: the logical submissions. *)
Definition submissions (c : config) : list value :=
  rev (flat_map (fun f => firstn 1 (made f)) (returned c))
  ++ flat_map (fun t => firstn 1 (calls t)) (running c).

(** Every logical submission carries a token of its own. *)
Definition tokens_fresh (c : config) : Prop :=
  NoDup (map token (submissions c)).

(** *** Measures and summaries of a configuration *)

(** An event that comes from the timer or from the endpoint. *)
Definition from_outside (ev : event) : bool :=
  match ev with
  | TimerFires _ | RequestSettles _ _ => true
  | _ => false
  end.

(** How many timer and endpoint events the call in flight can still take:
    two for every retry left, and the answer awaited (after the delay, when
    the call sleeps). *)
Definition remaining (c : config) : Z :=
  match running c with
  | [] => 0
  | t :: _ =>
      2 * (maxRetries - retryCount (state c))
      + match suspended_at t with
        | AwaitSleep _ _ => 2
        | _ => 1
        end
  end.

(** What the status says about the other fields and about the last promise
    of [submit] that settled. *)
Definition status_tells (c : config) : Prop :=
  match status (state c) with
  | IDLE => state c = mounted
  | PENDING => retryCount (state c) = 0
  | RETRYING => 1 <= retryCount (state c) <= maxRetries
  | SUCCESS =>
      exists f rest,
        returned c = f :: rest /\
        settlement f = Fulfilled (result (state c)) /\
        made f = repeat (given f) (S (Z.to_nat (retryCount (state c))))
  | ERROR =>
      exists f rest,
        returned c = f :: rest /\
        settlement f = RejectedWith (error (state c)) /\
        made f = repeat (given f) (S (Z.to_nat (retryCount (state c))))
  end.

(* ================================================================== *)
(** ** The mock endpoint (mockApi/api.js) *)
(* ================================================================== *)

(** What one call of the mock takes from outside: the three numbers it may
    draw with [randomInt] ([randomInt(0, 2)], [randomInt(DELAY_MIN_MS,
    DELAY_MAX_MS)], [randomInt(1000, 9999)]) and the value of [Date.now()]
    when it makes the identifier. *)
Record chance : Type := mkChance {
  drawn_outcome : Z;
  delayMs : Z;
  drawn_suffix : Z;
  now : Z
}.

(** What a call of [submitForm] gives back: a promise that is settled, a
    promise that settles after a delay, or an exception. *)
Inductive reply : Type :=
| Settles (o : outcome)
| SettlesAfter (ms : Z) (o : outcome)
| Throws (e : value).

(** A whole number in a template literal. *)
Definition decimal (z : Z) : string := NilZero.string_of_int (Z.to_int z).

Fixpoint index_fields (i : nat) (s : string) : list (string * value) :=
  match s with
  | EmptyString => []
  | String ch rest =>
      (decimal (Z.of_nat i), JString (String ch EmptyString))
        :: index_fields (S i) rest
  end.

(** [{ ...data }]: the fields of an object, the characters of a string,
    nothing for the other values. *)
Definition spread (data : value) : list (string * value) :=
  match data with
  | JObject fields => fields
  | JString s => index_fields 0 s
  | _ => []
  end.

(** A field written after a spread: it replaces the field of that name or
    comes last. *)
Fixpoint assign (name : string) (x : value) (fields : list (string * value))
    : list (string * value) :=
  match fields with
  | [] => [(name, x)]
  | (k, v) :: rest =>
      if String.eqb k name then (k, x) :: rest
      else (k, v) :: assign name x rest
  end.

(** [{ success: true, data: { ...data, id } }] *)
Definition accepted (data : value) (id : string) : value :=
  JObject [("success", JBool true);
           ("data", JObject (assign "id" (JString id) (spread data)))].

Definition forced_failure : value :=
  JObject [("status", num 503);
           ("message", JString "Service Temporarily Unavailable (Forced)")].

Definition hiccup : value :=
  JObject [("status", num 503);
           ("message", JString "Service is hiccups... (Will recover)")].

(** [submitForm(data)] with the module's counter [retryAttempt] before the
    call: the counter after it and what the caller gets.  [data.email] on
    [undefined] or [null] throws. *)
Definition submitForm (retryAttempt : Z) (data : value) (ch : chance)
    : Z * reply :=
  match member data "email" with
  | None => (retryAttempt, Throws type_error)
  | Some email =>
      if strict_equals email (JString "error@example.com") then
        (retryAttempt, Settles (Rejected forced_failure))
      else if strict_equals email (JString "retry@example.com") then
        if retryAttempt + 1 <? 3 then
          (retryAttempt + 1, Settles (Rejected hiccup))
        else
          (0, Settles (Resolved
                         (accepted data ("mock-recovered-" ++ decimal (now ch)))))
      else if drawn_outcome ch =? 0 then
        (retryAttempt,
         Settles (Resolved
                    (accepted data ("mock-" ++ decimal (now ch) ++ "-"
                                    ++ decimal (drawn_suffix ch)))))
      else if drawn_outcome ch =? 1 then
        (retryAttempt,
         SettlesAfter (delayMs ch)
           (Resolved
              (accepted data ("mock-" ++ decimal (now ch) ++ "-"
                              ++ decimal (drawn_suffix ch)))))
      else (retryAttempt, Settles (Rejected unavailable))
  end.

(** *** The hook in front of the mock *)

(** The payloads [submitForm] is called with while an event is handled. *)
Definition invoked_by (c : config) (ev : event) : list value :=
  match ev with
  | CallSubmit payload => invoked (run (submit payload) (state c))
  | CallReset => invoked (run reset (state c))
  | TimerFires i =>
      match nth_error (running c) i with
      | Some t =>
          match suspended_at t with
          | AwaitSleep _ k => invoked (run k (state c))
          | _ => []
          end
      | None => []
      end
  | RequestSettles i o =>
      match nth_error (running c) i with
      | Some t =>
          match suspended_at t with
          | AwaitSubmitForm _ k => invoked (run (k o) (state c))
          | _ => []
          end
      | None => []
      end
  end.

(** The place in [running], after the event, of the call it resumed or
    started. *)
Definition resumed_by (c : config) (ev : event) : nat :=
  match ev with
  | CallSubmit _ => List.length (running c)
  | CallReset => O
  | TimerFires i => i
  | RequestSettles i _ => i
  end.

(** The hook, the counter of the mock, and the promise of the mock the hook
    is waiting for, once the mock has decided how it settles. *)
Record world : Type := mkWorld {
  controller : config;
  retryAttempt : Z;
  inbox : option outcome
}.

Definition opened : world := mkWorld start 0 None.

(** An event of the hook that comes from outside, with the mock answering
    the request the hook makes while handling it, if it makes one.  An
    exception of the mock is caught by the [catch] clause of [submit] in
    the same run. *)
Definition outside (w : world) (ev : event) (ch : chance) : option world :=
  match step (controller w) ev with
  | None => None
  | Some c' =>
      match invoked_by (controller w) ev with
      | [] => Some (mkWorld c' (retryAttempt w) (inbox w))
      | data :: _ =>
          match submitForm (retryAttempt w) data ch with
          | (counter, Settles o) => Some (mkWorld c' counter (Some o))
          | (counter, SettlesAfter _ o) => Some (mkWorld c' counter (Some o))
          | (counter, Throws e) =>
              match step c' (RequestSettles (resumed_by (controller w) ev)
                                            (Rejected e)) with
              | Some c'' => Some (mkWorld c'' counter (inbox w))
              | None => None
              end
          end
      end
  end.

Inductive happening : Type :=
| Submits (payload : value) (ch : chance)   (* a call of submit *)
| Resets                                    (* a call of reset *)
| Elapses (ch : chance)                     (* the retry delay is over *)
| Answers.                                  (* the promise of the mock settles *)

Definition happen (w : world) (x : happening) : option world :=
  match x with
  | Submits payload ch => outside w (CallSubmit payload) ch
  | Resets => outside w CallReset (mkChance 0 0 0 0)
  | Elapses ch => outside w (TimerFires 0) ch
  | Answers =>
      match inbox w with
      | Some o =>
          match step (controller w) (RequestSettles 0 o) with
          | Some c' => Some (mkWorld c' (retryAttempt w) None)
          | None => None
          end
      | None => None
      end
  end.

Fixpoint play (w : world) (xs : list happening) : option world :=
  match xs with
  | [] => Some w
  | x :: rest =>
      match happen w x with
      | Some w' => play w' rest
      | None => None
      end
  end.

(** The mock rejects and the delay before the next attempt elapses. *)
Definition failed_round (ch : chance) : list happening := [Answers; Elapses ch].

(** Draws of the mock: one that makes it answer at once, one that makes it
    reject. *)
Definition lucky : chance := mkChance 0 7000 1234 1700000000000.

Definition unlucky : chance := mkChance 2 7000 1234 1700000000000.

(* ================================================================== *)
(** ** The form (components/TransactionForm.js) *)
(* ================================================================== *)

(** [a?.name] *)
Definition optional_member (v : value) (name : string) : value :=
  match member v name with
  | Some x => x
  | None => JUndefined
  end.

(** [a || b] *)
Definition js_or (a b : value) : value := if truthy a then a else b.

(** What [{cond && <span>...</span>}] puts in the page: the element, or the
    falsy value of the condition. *)
Inductive conditional : Type :=
| Element (shown : value)
| Bare (v : value).

(** What the component returns. *)
Inductive view : Type :=
| SuccessView (id_line : conditional)
| FormView (disabled : bool) (button : string) (banner : option Z)
           (failure : option value).

(** Lines 14-15 and 43-122: the page for a state of the hook. *)
Definition render (h : hook) : view :=
  match status h with
  | SUCCESS =>
      let id := optional_member (optional_member (result h) "data") "id" in
      SuccessView (if truthy id then Element id else Bare id)
  | _ =>
      FormView (isBusy h)
        (if isBusy h then
           match status h with
           | RETRYING => "Retrying Connection..."
           | _ => "Processing..."
           end
         else "Pay Now")
        (match status h with
         | RETRYING => Some (retryCount h)
         | _ => None
         end)
        (match status h with
         | ERROR =>
             Some (js_or (optional_member (error h) "message")
                         (JString "Transaction failed. Please try again."))
         | _ => None
         end)
  end.

(** The component: the hook and the two fields. *)
Record page : Type := mkPage {
  hooked : config;
  email : string;
  amount : string
}.

Definition first_page : page := mkPage start "" "".

(** Lines 37-41. *)
Definition handleReset (p : page) : option page :=
  match step (hooked p) CallReset with
  | Some c => Some (mkPage c "" "")
  | None => None
  end.

(* ================================================================== *)
(** ** Properties *)
(* ================================================================== *)

(** *** Error classification *)

Lemma isRetryable_never_throws (e : value) :
  isRetryable e = Some (if truthy e then JBool (retryable e) else e).
Proof.
  unfold retryable, isRetryable.
  destruct (truthy e) eqn:Ht; [ | reflexivity].
  destruct e; simpl in *; try discriminate; reflexivity.
Qed.

Lemma retryable_object (fields : list (string * value)) :
  retryable (JObject fields) =
  match lookup "status" fields with
  | Some (JNumber (Finite q)) => Qeq_bool q 503
  | _ => false
  end.
Proof.
  unfold retryable, isRetryable; simpl.
  destruct (lookup "status" fields) as [[ | | b | [q | | | ] | s | fs] | ];
    reflexivity.
Qed.

Lemma retryable_primitive (e : value) :
  (forall fields, e <> JObject fields) -> retryable e = false.
Proof.
  intros Hprim. unfold retryable, isRetryable.
  destruct (truthy e) eqn:Ht.
  - destruct e as [ | | b | n | s | fields]; simpl in *;
      try discriminate; try reflexivity.
    exfalso. apply (Hprim fields). reflexivity.
  - exact Ht.
Qed.

Lemma on_error_cases (next : prog) (attempt : Z) (err : value) :
  on_error next attempt err =
  if retryable err && (attempt <? maxRetries) then next
  else SetError err (SetStatus ERROR (Throw err)).
Proof.
  unfold on_error. rewrite isRetryable_never_throws.
  destruct (truthy err) eqn:Ht.
  - reflexivity.
  - unfold retryable. rewrite isRetryable_never_throws, Ht, Ht. reflexivity.
Qed.

(** *** The suspended programs, unfolded *)

Lemma at_request_unfold (payload : value) (n : nat) (attempt : Z) :
  at_request payload n attempt =
  AwaitSubmitForm payload
    (fun o =>
       try_finally
         (try_catch (after_submitForm o)
                    (on_error (attempts payload n (attempt + 1)) attempt))
         release).
Proof. reflexivity. Qed.

Lemma at_sleep_unfold (payload : value) (n : nat) (attempt : Z) :
  at_sleep payload n attempt =
  AwaitSleep retryDelayMs (at_request payload n attempt).
Proof. reflexivity. Qed.

Lemma first_attempt (payload : value) (n : nat) :
  try_finally (attempts payload (S n) 0) release = at_request payload n 0.
Proof. reflexivity. Qed.

Lemma later_attempt (payload : value) (n : nat) (attempt : Z) :
  0 < attempt ->
  try_finally (attempts payload (S n) attempt) release =
  SetStatus RETRYING (SetRetryCount attempt (at_sleep payload n attempt)).
Proof.
  intros Hpos. simpl. unfold attempt_body.
  replace (0 <? attempt) with true by (symmetry; apply Z.ltb_lt; exact Hpos).
  reflexivity.
Qed.

(** The loop on [n] iterations is the [for] loop: it goes on exactly while
    [attempt <= maxRetries]. *)
Lemma attempts_loop_test (payload : value) (attempt : Z) :
  attempts payload (Z.to_nat (maxRetries + 1 - attempt)) attempt =
  if attempt <=? maxRetries then
    try_catch (attempt_body payload attempt)
      (on_error
         (attempts payload (Z.to_nat (maxRetries + 1 - (attempt + 1)))
                   (attempt + 1))
         attempt)
  else Return JUndefined.
Proof.
  destruct (Z.leb_spec attempt maxRetries) as [Hle | Hgt].
  - replace (Z.to_nat (maxRetries + 1 - attempt))
      with (S (Z.to_nat (maxRetries + 1 - (attempt + 1)))) by lia.
    reflexivity.
  - replace (Z.to_nat (maxRetries + 1 - attempt)) with O by lia.
    reflexivity.
Qed.

Lemma iterations_from_zero : iterations = Z.to_nat (maxRetries + 1 - 0).
Proof. unfold iterations. f_equal. lia. Qed.

Lemma iterations_succ (n : nat) :
  iterations = S n -> Z.of_nat n = maxRetries - 0.
Proof. unfold iterations. lia. Qed.

Lemma iterations_zero : iterations = O -> maxRetries < 0.
Proof. unfold iterations. lia. Qed.

(** *** Running the two callbacks *)

Lemma run_submit_busy (h : hook) (payload : value) :
  inFlightRef h = true ->
  run (submit payload) h = mkRan h [] (Settled (Fulfilled JUndefined)).
Proof. intros Hbusy. simpl. rewrite Hbusy. reflexivity. Qed.

Lemma run_submit_free (h : hook) (payload : value) :
  inFlightRef h = false ->
  run (submit payload) h =
  match iterations with
  | O => mkRan (mkHook false PENDING 0 JNull JNull) []
               (Settled (Fulfilled JUndefined))
  | S n => mkRan (mkHook true PENDING 0 JNull JNull) [payload]
                 (Suspended (at_request payload n 0))
  end.
Proof.
  intros Hfree. simpl. rewrite Hfree. simpl.
  destruct iterations as [ | n]; reflexivity.
Qed.

Lemma run_reset_busy (h : hook) :
  inFlightRef h = true ->
  run reset h = mkRan h [] (Settled (Fulfilled JUndefined)).
Proof. intros Hbusy. simpl. rewrite Hbusy. reflexivity. Qed.

Lemma run_reset_free (h : hook) :
  inFlightRef h = false ->
  run reset h =
  mkRan (mkHook false IDLE 0 JNull JNull) [] (Settled (Fulfilled JUndefined)).
Proof. intros Hfree. simpl. rewrite Hfree. simpl. rewrite Hfree. reflexivity. Qed.

(** The request of iteration [attempt] is answered. *)
Lemma run_resolved (payload response : value) (n : nat) (attempt : Z)
    (h : hook) :
  run (try_finally
         (try_catch (after_submitForm (Resolved response))
                    (on_error (attempts payload n (attempt + 1)) attempt))
         release) h =
  mkRan (mkHook false SUCCESS (retryCount h) (error h) response) []
        (Settled (Fulfilled response)).
Proof. reflexivity. Qed.

(** The request of iteration [attempt] is rejected, for the last time. *)
Lemma run_rejected_final (payload err : value) (n : nat) (attempt : Z)
    (h : hook) :
  retryable err && (attempt <? maxRetries) = false ->
  run (try_finally
         (try_catch (after_submitForm (Rejected err))
                    (on_error (attempts payload n (attempt + 1)) attempt))
         release) h =
  mkRan (mkHook false ERROR (retryCount h) err (result h)) []
        (Settled (RejectedWith err)).
Proof.
  intros Hlast. simpl. rewrite on_error_cases, Hlast. reflexivity.
Qed.

(** The request of iteration [attempt] is rejected and the loop goes on. *)
Lemma run_rejected_retry (payload err : value) (n : nat) (attempt : Z)
    (h : hook) :
  0 <= attempt ->
  retryable err && (attempt <? maxRetries) = true ->
  run (try_finally
         (try_catch (after_submitForm (Rejected err))
                    (on_error (attempts payload (S n) (attempt + 1)) attempt))
         release) h =
  mkRan (mkHook (inFlightRef h) RETRYING (attempt + 1) (error h) (result h)) []
        (Suspended (at_sleep payload n (attempt + 1))).
Proof.
  intros Hpos Hretry.
  change (try_catch (after_submitForm (Rejected err))
            (on_error (attempts payload (S n) (attempt + 1)) attempt))
    with (on_error (attempts payload (S n) (attempt + 1)) attempt err).
  rewrite on_error_cases, Hretry, later_attempt by lia.
  reflexivity.
Qed.

(** *** One event on a configuration with one suspended call *)

Lemma step_resolved (h : hook) (payload response : value) (n : nat)
    (attempt : Z) (sent : list value) (done : list finished) :
  step (mkConfig h [mkCycle payload (at_request payload n attempt) sent] done)
       (RequestSettles 0 (Resolved response)) =
  Some (mkConfig (mkHook false SUCCESS (retryCount h) (error h) response) []
                 (mkFinished payload sent (Fulfilled response) :: done)).
Proof.
  unfold step, resume, conclude. simpl. rewrite app_nil_r. reflexivity.
Qed.

Lemma step_rejected_final (h : hook) (payload err : value) (n : nat)
    (attempt : Z) (sent : list value) (done : list finished) :
  retryable err && (attempt <? maxRetries) = false ->
  step (mkConfig h [mkCycle payload (at_request payload n attempt) sent] done)
       (RequestSettles 0 (Rejected err)) =
  Some (mkConfig (mkHook false ERROR (retryCount h) err (result h)) []
                 (mkFinished payload sent (RejectedWith err) :: done)).
Proof.
  intros Hlast. unfold step, resume. cbn [nth_error running suspended_at].
  rewrite at_request_unfold. rewrite run_rejected_final by exact Hlast.
  unfold conclude. simpl. rewrite app_nil_r. reflexivity.
Qed.

Lemma step_rejected_retry (h : hook) (payload err : value) (n : nat)
    (attempt : Z) (sent : list value) (done : list finished) :
  0 <= attempt ->
  retryable err && (attempt <? maxRetries) = true ->
  step (mkConfig h [mkCycle payload (at_request payload (S n) attempt) sent] done)
       (RequestSettles 0 (Rejected err)) =
  Some (mkConfig
          (mkHook (inFlightRef h) RETRYING (attempt + 1) (error h) (result h))
          [mkCycle payload (at_sleep payload n (attempt + 1)) sent] done).
Proof.
  intros Hpos Hretry. unfold step, resume. cbn [nth_error running suspended_at].
  rewrite at_request_unfold. rewrite run_rejected_retry by assumption.
  unfold conclude. simpl. rewrite app_nil_r. reflexivity.
Qed.

Lemma step_timer (h : hook) (payload : value) (n : nat) (attempt : Z)
    (sent : list value) (done : list finished) :
  step (mkConfig h [mkCycle payload (at_sleep payload n attempt) sent] done)
       (TimerFires 0) =
  Some (mkConfig h [mkCycle payload (at_request payload n attempt)
                          (sent ++ [payload])]
                 done).
Proof. reflexivity. Qed.

Lemma step_submit_busy (c : config) (payload : value) :
  inFlightRef (state c) = true ->
  step c (CallSubmit payload) = Some (turned_away c payload).
Proof.
  intros Hbusy. unfold step. rewrite run_submit_busy by exact Hbusy.
  reflexivity.
Qed.

Lemma step_reset_busy (c : config) :
  inFlightRef (state c) = true -> step c CallReset = Some c.
Proof.
  intros Hbusy. unfold step. rewrite run_reset_busy by exact Hbusy.
  destruct c; reflexivity.
Qed.

Lemma step_reset_free (c : config) :
  inFlightRef (state c) = false ->
  step c CallReset =
  Some (mkConfig (mkHook false IDLE 0 JNull JNull) (running c) (returned c)).
Proof.
  intros Hfree. unfold step. rewrite run_reset_free by exact Hfree.
  reflexivity.
Qed.

Lemma step_submit_free (c : config) (payload : value) :
  inFlightRef (state c) = false ->
  step c (CallSubmit payload) =
  Some match iterations with
       | O => mkConfig (mkHook false PENDING 0 JNull JNull) (running c)
                       (mkFinished payload [] (Fulfilled JUndefined)
                        :: returned c)
       | S n => mkConfig (mkHook true PENDING 0 JNull JNull)
                         (running c ++
                          [mkCycle payload (at_request payload n 0) [payload]])
                         (returned c)
       end.
Proof.
  intros Hfree. unfold step. rewrite run_submit_free by exact Hfree.
  destruct iterations; reflexivity.
Qed.

Lemma repeat_snoc {A : Type} (x : A) (k : nat) :
  repeat x k ++ [x] = repeat x (S k).
Proof. symmetry. apply (repeat_cons k x). Qed.

Lemma finished_ok_none (payload : value) (s : settled) :
  finished_ok (mkFinished payload [] s).
Proof. exists O. split; [reflexivity | apply Nat.le_0_l]. Qed.

Lemma finished_ok_attempt (payload : value) (attempt : Z) (n : nat)
    (s : settled) :
  0 <= attempt -> Z.of_nat n = maxRetries - attempt ->
  finished_ok (mkFinished payload (repeat payload (S (Z.to_nat attempt))) s).
Proof.
  intros Hpos Hleft. exists (S (Z.to_nat attempt)).
  split; [reflexivity | unfold iterations; lia].
Qed.

(** *** One event on the two busy configurations *)

Lemma step_free_submit (c : config) (payload : value) (n : nat) :
  running c = [] -> inFlightRef (state c) = false -> iterations = S n ->
  step c (CallSubmit payload) = Some (requesting payload n 0 (returned c)).
Proof.
  intros Hnone Hfree Hit. rewrite step_submit_free by exact Hfree.
  rewrite Hit, Hnone. reflexivity.
Qed.

Lemma step_requesting_resolved (payload response : value) (n : nat)
    (attempt : Z) (done : list finished) :
  step (requesting payload n attempt done)
       (RequestSettles 0 (Resolved response)) =
  Some (mkConfig (mkHook false SUCCESS attempt JNull response) []
          (mkFinished payload (repeat payload (S (Z.to_nat attempt)))
                      (Fulfilled response) :: done)).
Proof. unfold requesting. rewrite step_resolved. reflexivity. Qed.

Lemma step_requesting_final (payload err : value) (n : nat) (attempt : Z)
    (done : list finished) :
  retryable err && (attempt <? maxRetries) = false ->
  step (requesting payload n attempt done) (RequestSettles 0 (Rejected err)) =
  Some (mkConfig (mkHook false ERROR attempt err JNull) []
          (mkFinished payload (repeat payload (S (Z.to_nat attempt)))
                      (RejectedWith err) :: done)).
Proof.
  intros Hlast. unfold requesting.
  rewrite step_rejected_final by exact Hlast. reflexivity.
Qed.

Lemma step_requesting_retry (payload err : value) (n : nat) (attempt : Z)
    (done : list finished) :
  0 <= attempt -> retryable err = true -> attempt < maxRetries ->
  step (requesting payload (S n) attempt done)
       (RequestSettles 0 (Rejected err)) =
  Some (sleeping payload n (attempt + 1) done).
Proof.
  intros Hpos Hretry Hlt. unfold requesting, sleeping.
  rewrite step_rejected_retry;
    [ | exact Hpos | rewrite Hretry; apply Z.ltb_lt; exact Hlt].
  change (payload :: repeat payload (Z.to_nat attempt))
    with (repeat payload (S (Z.to_nat attempt))).
  replace (S (Z.to_nat attempt)) with (Z.to_nat (attempt + 1)) by lia.
  reflexivity.
Qed.

Lemma step_sleeping_timer (payload : value) (n : nat) (attempt : Z)
    (done : list finished) :
  0 < attempt ->
  step (sleeping payload n attempt done) (TimerFires 0) =
  Some (requesting payload n attempt done).
Proof.
  intros Hpos. unfold sleeping, requesting.
  rewrite step_timer, repeat_snoc.
  replace (attempt =? 0) with false
    by (symmetry; apply Z.eqb_neq; lia).
  reflexivity.
Qed.

(** *** The moves are the steps *)

Lemma transition_step (c c' : config) (ev : event) :
  transition c ev c' -> step c ev = Some c'.
Proof.
  intros [c0 p Hnone Hfree Hit | c0 p n Hnone Hfree Hit | c0 p Hbusy
         | c0 Hnone Hfree | c0 Hbusy
         | p n a done r Hpos Hleft | p n a done e Hpos Hleft Hlast
         | p n a done e Hpos Hleft Hretry | p n a done Hpos Hleft].
  - rewrite step_submit_free by exact Hfree. rewrite Hit, Hnone. reflexivity.
  - apply step_free_submit; assumption.
  - apply step_submit_busy. exact Hbusy.
  - rewrite step_reset_free by exact Hfree. rewrite Hnone. reflexivity.
  - apply step_reset_busy. exact Hbusy.
  - apply step_requesting_resolved.
  - apply step_requesting_final. exact Hlast.
  - apply step_requesting_retry; [exact Hpos | exact Hretry | lia].
  - apply step_sleeping_timer. exact Hpos.
Qed.

Ltac not_waiting i :=
  destruct i as [ | [ | i]]; discriminate.

Lemma step_transition (c c' : config) (ev : event) :
  consistent c -> step c ev = Some c' -> transition c ev c'.
Proof.
  intros Hc Hstep.
  destruct Hc as [h done Hfree Hidle Hcount Herr Hres Hdone
                 | done payload n attempt Hpos Hleft Hdone
                 | done payload n attempt Hpos Hleft Hdone].
  - (* no call is suspended *)
    destruct ev as [p | | i | i o].
    + rewrite step_submit_free in Hstep by exact Hfree.
      injection Hstep as <-.
      destruct iterations as [ | n0] eqn:Hit.
      * apply (accept_without_loop (mkConfig h [] done) p);
          [reflexivity | exact Hfree | exact Hit].
      * apply (accept (mkConfig h [] done) p n0);
          [reflexivity | exact Hfree | exact Hit].
    + rewrite step_reset_free in Hstep by exact Hfree.
      injection Hstep as <-.
      apply (clear (mkConfig h [] done)); [reflexivity | exact Hfree].
    + simpl in Hstep. destruct i; discriminate.
    + simpl in Hstep. destruct i; discriminate.
  - (* one call waits for the endpoint *)
    destruct ev as [p | | i | i o].
    + rewrite step_submit_busy in Hstep by reflexivity.
      injection Hstep as <-. apply turn_away. reflexivity.
    + rewrite step_reset_busy in Hstep by reflexivity.
      injection Hstep as <-. apply ignore_reset. reflexivity.
    + not_waiting i.
    + destruct i as [ | i]; [ | destruct i; discriminate].
      destruct o as [response | err].
      * rewrite step_requesting_resolved in Hstep. injection Hstep as <-.
        apply succeed; assumption.
      * destruct (retryable err && (attempt <? maxRetries)) eqn:Hretry.
        -- apply andb_prop in Hretry. destruct Hretry as [Hretry Hlt].
           apply Z.ltb_lt in Hlt.
           destruct n as [ | n]; [lia | ].
           rewrite step_requesting_retry in Hstep by assumption.
           injection Hstep as <-. apply retry; assumption.
        -- rewrite step_requesting_final in Hstep by exact Hretry.
           injection Hstep as <-. apply fail; assumption.
  - (* one call sleeps before its next attempt *)
    destruct ev as [p | | i | i o].
    + rewrite step_submit_busy in Hstep by reflexivity.
      injection Hstep as <-. apply turn_away. reflexivity.
    + rewrite step_reset_busy in Hstep by reflexivity.
      injection Hstep as <-. apply ignore_reset. reflexivity.
    + destruct i as [ | i]; [ | destruct i; discriminate].
      rewrite step_sleeping_timer in Hstep by exact Hpos.
      injection Hstep as <-. apply wake; assumption.
    + not_waiting i.
Qed.

(** *** The invariant *)

Ltac free_shape :=
  apply consistent_free; simpl; try reflexivity; try lia; try congruence.

Lemma consistent_start : consistent start.
Proof. free_shape. constructor. Qed.

Lemma consistent_returned (c : config) :
  consistent c -> Forall finished_ok (returned c).
Proof. intros [ | | ]; assumption. Qed.

Lemma consistent_turned_away (c : config) (payload : value) :
  consistent c -> inFlightRef (state c) = true ->
  consistent (turned_away c payload).
Proof.
  intros [h done Hfree _ _ _ _ _ | done p n attempt Hpos Hleft Hdone
         | done p n attempt Hpos Hleft Hdone] Hbusy; simpl in Hbusy.
  - congruence.
  - apply (consistent_requesting _ p n attempt); try assumption.
    constructor; [apply finished_ok_none | exact Hdone].
  - apply (consistent_sleeping _ p n attempt); try assumption.
    constructor; [apply finished_ok_none | exact Hdone].
Qed.

Lemma consistent_transition (c c' : config) (ev : event) :
  consistent c -> transition c ev c' -> consistent c'.
Proof.
  intros Hc Hmove. pose proof (consistent_returned c Hc) as Hdone.
  destruct Hmove as [c p Hnone Hfree Hit | c p n Hnone Hfree Hit | c p Hbusy
                    | c Hnone Hfree | c Hbusy
                    | p n a done r Hpos Hleft | p n a done e Hpos Hleft Hlast
                    | p n a done e Hpos Hleft Hretry | p n a done Hpos Hleft];
    simpl in Hdone.
  - apply iterations_zero in Hit. free_shape.
    constructor; [apply finished_ok_none | exact Hdone].
  - apply iterations_succ in Hit.
    apply consistent_requesting; [lia | exact Hit | exact Hdone].
  - apply consistent_turned_away; assumption.
  - free_shape.
  - exact Hc.
  - free_shape.
    constructor; [apply (finished_ok_attempt p a n); assumption | exact Hdone].
  - free_shape.
    constructor; [apply (finished_ok_attempt p a n); assumption | exact Hdone].
  - apply consistent_sleeping; [lia | lia | exact Hdone].
  - apply consistent_requesting; [lia | exact Hleft | exact Hdone].
Qed.

Lemma consistent_step (c c' : config) (ev : event) :
  consistent c -> step c ev = Some c' -> consistent c'.
Proof.
  intros Hc Hstep.
  exact (consistent_transition c c' ev Hc (step_transition c c' ev Hc Hstep)).
Qed.

Lemma exec_cons (c : config) (ev : event) (evs : list event) :
  exec c (ev :: evs) =
  match step c ev with
  | Some c' => exec c' evs
  | None => None
  end.
Proof. reflexivity. Qed.

Lemma exec_reachable (evs : list event) :
  forall c c', reachable c -> exec c evs = Some c' -> reachable c'.
Proof.
  induction evs as [ | ev evs IH]; intros c c' Hreach Hexec.
  - injection Hexec as <-. exact Hreach.
  - rewrite exec_cons in Hexec.
    destruct (step c ev) as [c1 | ] eqn:Hstep; [ | discriminate].
    exact (IH c1 c' (reachable_step c ev c1 Hreach Hstep) Hexec).
Qed.

Lemma reachable_consistent (c : config) : reachable c -> consistent c.
Proof.
  induction 1 as [ | c ev c' _ IH Hstep].
  - apply consistent_start.
  - exact (consistent_step c c' ev IH Hstep).
Qed.

Lemma consistent_free_inv (c : config) :
  consistent c -> inFlightRef (state c) = false -> running c = [].
Proof. intros [ | | ]; simpl; intros; [reflexivity | discriminate ..]. Qed.

Lemma consistent_busy_guard (c : config) :
  0 <= maxRetries -> consistent c ->
  isBusy (state c) = inFlightRef (state c).
Proof.
  intros Hmax [h done Hfree Hidle _ _ _ _ | done payload n attempt _ _ _
              | done payload n attempt _ _ _]; simpl.
  - rewrite Hfree. apply Hidle. exact Hmax.
  - unfold isBusy; simpl. destruct (attempt =? 0); reflexivity.
  - reflexivity.
Qed.

(** [List.length errs] rejections that the hook retries, each followed by its
    delay, take the call from the request of iteration [attempt] to the
    request of iteration [attempt + List.length errs]. *)
Lemma exec_retry_rounds (payload : value) (done : list finished)
    (errs : list value) :
  forall (n : nat) (attempt : Z) (rest : list event),
    0 <= attempt ->
    Z.of_nat (List.length errs + n) = maxRetries - attempt ->
    Forall (fun e => retryable e = true) errs ->
    exec (requesting payload (List.length errs + n) attempt done)
         (flat_map retry_round errs ++ rest) =
    exec (requesting payload n (attempt + Z.of_nat (List.length errs)) done) rest.
Proof.
  induction errs as [ | e errs IH]; intros n attempt rest Hpos Hleft Hall.
  - simpl. rewrite Z.add_0_r. reflexivity.
  - inversion Hall as [ | e' errs' He Herrs]; subst.
    cbn [flat_map retry_round app List.length Nat.add].
    cbn [List.length Nat.add] in Hleft.
    rewrite exec_cons, step_requesting_retry by (assumption || lia).
    rewrite exec_cons, step_sleeping_timer by lia.
    rewrite IH by (assumption || lia).
    f_equal. f_equal. lia.
Qed.

(* ================================================================== *)
(** ** The properties of the design document *)
(* ================================================================== *)

(** C1 (single-flight guard).  In every configuration reached by any
    interleaving of calls of [submit] and [reset], timers and endpoint
    answers, at most one call of [submit] is suspended in its attempt loop;
    the status is Pending or Retrying exactly when the guard is held; and a
    call of [submit] made then returns at once, calls the endpoint with
    nothing, and leaves the ref, the status, the retry count, the error and
    the result, and the suspended call, as they were. *)
Theorem submit_single_flight (c : config) :
  0 <= maxRetries ->
  reachable c ->
  (List.length (running c) <= 1)%nat /\
  (isBusy (state c) = true <-> inFlightRef (state c) = true) /\
  (isBusy (state c) = true ->
   forall payload,
     step c (CallSubmit payload) = Some (turned_away c payload)).
Proof.
  intros Hmax Hreach. apply reachable_consistent in Hreach.
  pose proof (consistent_busy_guard c Hmax Hreach) as Hguard.
  split; [ | split].
  - destruct Hreach; simpl; lia.
  - rewrite Hguard. reflexivity.
  - intros Hbusy payload. rewrite Hguard in Hbusy.
    apply step_submit_busy. exact Hbusy.
Qed.

(** C2 (retry bound).  With [maxRetries = N >= 0], in every reachable
    configuration the retry count is at most [N], and every call of
    [submit], suspended or settled, has called the endpoint at most [N + 1]
    times. *)
Theorem retry_bound (c : config) :
  0 <= maxRetries ->
  reachable c ->
  0 <= retryCount (state c) <= maxRetries /\
  Forall (fun t => Z.of_nat (List.length (calls t)) <= maxRetries + 1)
         (running c) /\
  Forall (fun f => Z.of_nat (List.length (made f)) <= maxRetries + 1)
         (returned c).
Proof.
  intros Hmax Hreach. apply reachable_consistent in Hreach.
  split; [ | split].
  - destruct Hreach as [h done _ _ Hcount _ _ _ | done payload n attempt ? ? _
                       | done payload n attempt ? ? _]; simpl; lia.
  - destruct Hreach as [h done _ _ _ _ _ _ | done payload n attempt ? ? _
                       | done payload n attempt ? ? _]; simpl.
    + constructor.
    + constructor; [ | constructor]. simpl. rewrite repeat_length. lia.
    + constructor; [ | constructor]. simpl. rewrite repeat_length. lia.
  - apply consistent_returned in Hreach.
    eapply Forall_impl; [ | exact Hreach].
    intros f (k & Hk & Hle). rewrite Hk, repeat_length.
    unfold iterations in Hle. lia.
Qed.

(** C3 (success after transient failures).  From a reachable configuration
    with no submission in flight, if the endpoint rejects the first [k]
    requests of a call [submit(payload)] with retryable errors, [k] at most
    [maxRetries], and answers the next one, then the call has called the
    endpoint [k + 1] times, always with [payload], its promise is fulfilled
    with the answer, and the hook shows Success with the answer as result
    and no error. *)
Theorem success_after_transient_failures (c : config)
    (payload response : value) (errs : list value) :
  reachable c ->
  inFlightRef (state c) = false ->
  Z.of_nat (List.length errs) <= maxRetries ->
  Forall (fun e => retryable e = true) errs ->
  exec c (CallSubmit payload
            :: flat_map retry_round errs
            ++ [RequestSettles 0 (Resolved response)]) =
  Some (mkConfig
          (mkHook false SUCCESS (Z.of_nat (List.length errs)) JNull response)
          []
          (mkFinished payload (repeat payload (S (List.length errs)))
                      (Fulfilled response) :: returned c)).
Proof.
  intros Hreach Hfree Hk Hall. apply reachable_consistent in Hreach.
  pose proof (consistent_free_inv c Hreach Hfree) as Hnone.
  set (n := (Z.to_nat maxRetries - List.length errs)%nat).
  assert (Hit : iterations = S (List.length errs + n))
    by (unfold iterations; lia).
  rewrite exec_cons, (step_free_submit c payload _ Hnone Hfree Hit).
  rewrite exec_retry_rounds by (assumption || lia).
  rewrite exec_cons, step_requesting_resolved. simpl.
  rewrite Nat2Z.id. reflexivity.
Qed.

(** C4 (exhaustion).  From a reachable configuration with no submission in
    flight, if the endpoint rejects every request of a call
    [submit(payload)] with a retryable error, then after the rejection of
    request number [maxRetries + 1] the call has ended: it has called the
    endpoint [maxRetries + 1] times, the hook shows Error with the last
    rejection as error, and the promise is rejected with it. *)
Theorem exhaustion (c : config) (payload last : value) (errs : list value) :
  reachable c ->
  inFlightRef (state c) = false ->
  Z.of_nat (List.length errs) = maxRetries ->
  Forall (fun e => retryable e = true) (errs ++ [last]) ->
  exec c (CallSubmit payload
            :: flat_map retry_round errs
            ++ [RequestSettles 0 (Rejected last)]) =
  Some (mkConfig
          (mkHook false ERROR maxRetries last JNull)
          []
          (mkFinished payload (repeat payload (S (List.length errs)))
                      (RejectedWith last) :: returned c)).
Proof.
  intros Hreach Hfree Hk Hall. apply reachable_consistent in Hreach.
  pose proof (consistent_free_inv c Hreach Hfree) as Hnone.
  apply Forall_app in Hall. destruct Hall as [Hall _].
  assert (Hit : iterations = S (List.length errs + 0))
    by (unfold iterations; lia).
  rewrite exec_cons, (step_free_submit c payload _ Hnone Hfree Hit).
  rewrite exec_retry_rounds by (assumption || lia).
  rewrite exec_cons, step_requesting_final.
  - simpl. rewrite Nat2Z.id, Hk. reflexivity.
  - apply andb_false_intro2. apply Z.ltb_ge. lia.
Qed.

(** C5 (error classification).  [isRetryable] never throws, and what the
    [catch] clause reads from it is true exactly for an object whose
    [status] field is the number 503; for every other rejection value the
    clause records the error and rethrows it, whatever the iteration, so
    with retries left as well.  The classification is a function of the
    rejection value alone: it reads and writes nothing of the hook. *)
Theorem isRetryable_classification (e : value) :
  (exists r, isRetryable e = Some r) /\
  (retryable e = true <-> carries_unavailable_indicator e) /\
  (~ carries_unavailable_indicator e ->
   forall next attempt,
     on_error next attempt e = SetError e (SetStatus ERROR (Throw e))).
Proof.
  assert (Hiff : retryable e = true <-> carries_unavailable_indicator e).
  { split.
    - intros Hretry.
      destruct e as [ | | b | n | s | fields];
        try (rewrite retryable_primitive in Hretry by (intros; discriminate);
             discriminate).
      rewrite retryable_object in Hretry.
      destruct (lookup "status" fields) as [[ | | b | [q | | | ] | s | fs] | ]
        eqn:Hstatus; try discriminate.
      exists fields, q. repeat split; try assumption.
      apply Qeq_bool_iff. exact Hretry.
    - intros (fields & q & -> & Hstatus & Hq).
      rewrite retryable_object, Hstatus. apply Qeq_bool_iff. exact Hq. }
  split; [ | split].
  - rewrite isRetryable_never_throws. eexists. reflexivity.
  - exact Hiff.
  - intros Hnot next attempt. rewrite on_error_cases.
    destruct (retryable e) eqn:Hretry; [ | reflexivity].
    exfalso. apply Hnot, Hiff. reflexivity.
Qed.

(** C6 (terminal failure).  In a reachable configuration: a call of
    [submit] whose first request is rejected with an error that is not
    retryable calls the endpoint once and ends with status Error; whenever
    a request is rejected with an error that is not retryable, or with any
    error once the retry count has reached [maxRetries], the hook records
    status Error and that error and the promise of [submit] is rejected
    with the same value; and no promise of [submit] is ever rejected with a
    value other than the error the hook shows at that moment, in status
    Error. *)
Theorem terminal_failure_propagates (c : config) :
  reachable c ->
  (forall payload e,
     0 <= maxRetries -> inFlightRef (state c) = false ->
     retryable e = false ->
     exec c [CallSubmit payload; RequestSettles 0 (Rejected e)] =
     Some (mkConfig (mkHook false ERROR 0 e JNull) []
             (mkFinished payload [payload] (RejectedWith e) :: returned c))) /\
  (forall i e c',
     step c (RequestSettles i (Rejected e)) = Some c' ->
     retryable e && (retryCount (state c) <? maxRetries) = false ->
     state c' = mkHook false ERROR (retryCount (state c)) e JNull /\
     running c' = [] /\
     exists f, returned c' = f :: returned c /\
               settlement f = RejectedWith e) /\
  (forall ev c' f e,
     step c ev = Some c' ->
     returned c' = f :: returned c ->
     settlement f = RejectedWith e ->
     status (state c') = ERROR /\ error (state c') = e).
Proof.
  intros Hreach. apply reachable_consistent in Hreach.
  split; [ | split].
  - intros payload e Hmax Hfree Hterm.
    pose proof (consistent_free_inv c Hreach Hfree) as Hnone.
    assert (Hit : iterations = S (Z.to_nat maxRetries))
      by (unfold iterations; lia).
    rewrite exec_cons, (step_free_submit c payload _ Hnone Hfree Hit).
    rewrite exec_cons, step_requesting_final by (rewrite Hterm; reflexivity).
    reflexivity.
  - intros i e c' Hstep Hterm.
    apply (step_transition c c' _ Hreach) in Hstep.
    inversion Hstep as [ | | | | | | p n a done e' Hpos Hleft Hlast
                        | p n a done e' Hpos Hleft Hretry | ]; subst.
    + simpl. repeat split. eexists. split; reflexivity.
    + simpl in Hterm. rewrite Hretry in Hterm. simpl in Hterm.
      apply Z.ltb_ge in Hterm. lia.
  - intros ev c' f e Hstep Hret Hrej.
    assert (Hsame : forall l : list finished, l = f :: l -> False).
    { intros l Hl. apply (f_equal (@List.length finished)) in Hl.
      simpl in Hl. lia. }
    apply (step_transition c c' ev Hreach) in Hstep.
    destruct Hstep; simpl in Hret;
      try (destruct (Hsame _ Hret));
      injection Hret as <-; try discriminate.
    simpl in Hrej. injection Hrej as ->. split; reflexivity.
Qed.

(** C7 (reset discipline).  In a reachable configuration, a call of
    [reset] while the status is Pending or Retrying changes nothing; a call
    while the status is Idle, Success or Error sets the status to Idle, the
    retry count to 0 and the error and the result to null; and [reset]
    never calls the endpoint and never suspends. *)
Theorem reset_discipline (c : config) :
  0 <= maxRetries ->
  reachable c ->
  (isBusy (state c) = true -> step c CallReset = Some c) /\
  (isBusy (state c) = false ->
   step c CallReset =
   Some (mkConfig (mkHook false IDLE 0 JNull JNull) [] (returned c))) /\
  (forall h, invoked (run reset h) = [] /\
             ended (run reset h) = Settled (Fulfilled JUndefined)).
Proof.
  intros Hmax Hreach. apply reachable_consistent in Hreach.
  pose proof (consistent_busy_guard c Hmax Hreach) as Hguard.
  split; [ | split].
  - intros Hbusy. rewrite Hguard in Hbusy.
    apply step_reset_busy. exact Hbusy.
  - intros Hidle. rewrite Hguard in Hidle.
    rewrite step_reset_free by exact Hidle.
    rewrite (consistent_free_inv c Hreach Hidle). reflexivity.
  - intros h. destruct (inFlightRef h) eqn:Hflag.
    + rewrite run_reset_busy by exact Hflag. split; reflexivity.
    + rewrite run_reset_free by exact Hflag. split; reflexivity.
Qed.

(** C8 (result and error are exclusive).  In every reachable
    configuration the error and the result are not both set; the error is
    set only in status Error and the result only in status Success; and a
    call of [submit] that passes the guard leaves both null. *)
Theorem error_result_exclusive (c : config) :
  reachable c ->
  ~ (error (state c) <> JNull /\ result (state c) <> JNull) /\
  (error (state c) <> JNull -> status (state c) = ERROR) /\
  (result (state c) <> JNull -> status (state c) = SUCCESS) /\
  (forall payload,
     inFlightRef (state c) = false ->
     exists c',
       step c (CallSubmit payload) = Some c' /\
       error (state c') = JNull /\ result (state c') = JNull).
Proof.
  intros Hreach. apply reachable_consistent in Hreach.
  assert (Hfields : (error (state c) <> JNull -> status (state c) = ERROR) /\
                    (result (state c) <> JNull -> status (state c) = SUCCESS)).
  { destruct Hreach as [h done _ _ _ Herr Hres _ | done payload n attempt ? ? _
                       | done payload n attempt ? ? _]; simpl.
    - split; assumption.
    - split; intros Hset; destruct (Hset eq_refl).
    - split; intros Hset; destruct (Hset eq_refl). }
  destruct Hfields as [Herr Hres].
  split; [ | split; [exact Herr | split; [exact Hres | ]]].
  - intros [Hset_err Hset_res].
    rewrite (Herr Hset_err) in Hres. specialize (Hres Hset_res). discriminate.
  - intros payload Hfree. rewrite step_submit_free by exact Hfree.
    eexists. split; [reflexivity | ].
    destruct iterations; split; reflexivity.
Qed.

(** C9, as the code has it (payload passed through).  In every reachable
    configuration, each request a call of [submit] has made to the endpoint
    carried the very payload the call was given, hence the same idempotency
    token on the first attempt and on every retry; the hook adds no token
    of its own.  The token is the one the caller puts in the payload: the
    form's [handleSubmit] puts in the key it draws in that call. *)
Theorem payload_passed_through (c : config) :
  reachable c ->
  Forall (fun t => Forall (fun p => p = argument t) (calls t)) (running c) /\
  Forall (fun f => Forall (fun p => p = given f) (made f)) (returned c) /\
  (forall email amount drawn ev,
     handleSubmit email amount drawn = Some ev ->
     exists payload,
       ev = CallSubmit payload /\ token payload = Some (JString drawn)).
Proof.
  intros Hreach. apply reachable_consistent in Hreach.
  assert (Hrepeat : forall (p : value) (k : nat),
             Forall (fun q => q = p) (repeat p k)).
  { intros p k. apply Forall_forall. intros q Hin.
    apply repeat_spec in Hin. exact Hin. }
  split; [ | split].
  - destruct Hreach as [h done _ _ _ _ _ _ | done payload n attempt ? ? _
                       | done payload n attempt ? ? _]; simpl.
    + constructor.
    + constructor; [ | constructor].
      exact (Hrepeat payload (S (Z.to_nat attempt))).
    + constructor; [ | constructor].
      exact (Hrepeat payload (Z.to_nat attempt)).
  - apply consistent_returned in Hreach.
    eapply Forall_impl; [ | exact Hreach].
    intros f (k & Hk & _). rewrite Hk. apply Hrepeat.
  - intros email amount drawn ev Hev. unfold handleSubmit in Hev.
    destruct (String.eqb email "" || String.eqb amount ""); [discriminate | ].
    injection Hev as <-. eexists. split; reflexivity.
Qed.

(** C10 (a call turned away by the guard).  While the guard is held, a call
    of [submit] ends within the call itself, without calling the endpoint,
    and its promise is fulfilled with [undefined]: it is not rejected.  A
    call that passes the guard and whose request is answered is fulfilled
    with the answer instead. *)
Theorem dropped_submit_fulfils_undefined (c : config) (payload : value) :
  reachable c ->
  (inFlightRef (state c) = true ->
   run (submit payload) (state c) =
     mkRan (state c) [] (Settled (Fulfilled JUndefined)) /\
   exists c',
     step c (CallSubmit payload) = Some c' /\
     returned c' =
       mkFinished payload [] (Fulfilled JUndefined) :: returned c) /\
  (inFlightRef (state c) = false -> 0 <= maxRetries ->
   forall response,
   exists c',
     exec c [CallSubmit payload; RequestSettles 0 (Resolved response)] =
       Some c' /\
     returned c' =
       mkFinished payload [payload] (Fulfilled response) :: returned c).
Proof.
  intros Hreach. apply reachable_consistent in Hreach. split.
  - intros Hbusy. split.
    + apply run_submit_busy. exact Hbusy.
    + exists (turned_away c payload). split; [ | reflexivity].
      apply step_submit_busy. exact Hbusy.
  - intros Hfree Hmax response.
    pose proof (consistent_free_inv c Hreach Hfree) as Hnone.
    assert (Hit : iterations = S (Z.to_nat maxRetries))
      by (unfold iterations; lia).
    rewrite exec_cons, (step_free_submit c payload _ Hnone Hfree Hit).
    rewrite exec_cons, step_requesting_resolved.
    eexists. split; reflexivity.
Qed.

(* ================================================================== *)
(** ** Further properties of the hook *)
(* ================================================================== *)

(** The guard is held exactly while a call of [submit] is suspended: the
    [finally] clause has released it whenever no call is. *)
Theorem guard_held_iff_suspended (c : config) :
  reachable c ->
  (inFlightRef (state c) = true <-> exists t, running c = [t]) /\
  (inFlightRef (state c) = false <-> running c = []).
Proof.
  intros Hreach. apply reachable_consistent in Hreach.
  destruct Hreach as [h done Hfree _ _ _ _ _ | done payload n attempt _ _ _
                     | done payload n attempt _ _ _]; simpl.
  - rewrite Hfree. split; split; try reflexivity; try discriminate.
    intros [t Ht]. discriminate.
  - split; split; try reflexivity; try discriminate.
    intros _. eexists. reflexivity.
  - split; split; try reflexivity; try discriminate.
    intros _. eexists. reflexivity.
Qed.

Lemma remaining_requesting (payload : value) (n : nat) (attempt : Z)
    (done : list finished) :
  remaining (requesting payload n attempt done)
  = 2 * (maxRetries - attempt) + 1.
Proof. reflexivity. Qed.

Lemma remaining_sleeping (payload : value) (n : nat) (attempt : Z)
    (done : list finished) :
  remaining (sleeping payload n attempt done)
  = 2 * (maxRetries - attempt) + 2.
Proof. reflexivity. Qed.

Lemma remaining_step (c c' : config) (ev : event) :
  consistent c -> step c ev = Some c' -> from_outside ev = true ->
  0 <= remaining c' < remaining c.
Proof.
  intros Hc Hstep Hout. apply (step_transition c c' ev Hc) in Hstep.
  destruct Hstep as [c p Hnone Hfree Hit | c p n Hnone Hfree Hit | c p Hbusy
                    | c Hnone Hfree | c Hbusy
                    | p n a done r Hpos Hleft | p n a done e Hpos Hleft Hlast
                    | p n a done e Hpos Hleft Hretry | p n a done Hpos Hleft];
    try discriminate;
    unfold remaining; cbn -[Z.mul Z.add Z.sub]; lia.
Qed.

Lemma remaining_bound (c : config) :
  consistent c -> 0 <= remaining c <= 2 * Z.max 0 maxRetries + 1.
Proof.
  intros [h done _ _ _ _ _ _ | done payload n attempt Hpos Hleft _
         | done payload n attempt Hpos Hleft _].
  - unfold remaining; cbn -[Z.mul Z.add Z.sub Z.max]. lia.
  - rewrite remaining_requesting. lia.
  - rewrite remaining_sleeping. lia.
Qed.

(** Bounded termination.  From a reachable configuration, whatever the
    endpoint answers, no run of timer and endpoint events is longer than
    [remaining], which is at most [2 * maxRetries + 1]: by then the call
    in flight has ended. *)
Theorem cycle_ends_within_bound (c : config) (evs : list event) (c' : config) :
  reachable c ->
  forallb from_outside evs = true ->
  exec c evs = Some c' ->
  Z.of_nat (List.length evs) <= remaining c - remaining c' /\
  0 <= remaining c' /\
  remaining c <= 2 * Z.max 0 maxRetries + 1.
Proof.
  intros Hreach. apply reachable_consistent in Hreach.
  revert c Hreach. induction evs as [ | ev evs IH]; intros c Hc Hall Hexec.
  - injection Hexec as <-. pose proof (remaining_bound c Hc).
    cbn [List.length]. lia.
  - simpl in Hall. apply andb_prop in Hall. destruct Hall as [Hev Hall].
    rewrite exec_cons in Hexec.
    destruct (step c ev) as [c1 | ] eqn:Hstep; [ | discriminate].
    pose proof (remaining_step c c1 ev Hc Hstep Hev) as Hdown.
    pose proof (consistent_step c c1 ev Hc Hstep) as Hc1.
    destruct (IH c1 Hc1 Hall Hexec) as (Hlen & Hpos & _).
    pose proof (remaining_bound c Hc).
    cbn [List.length]. lia.
Qed.

Lemma status_tells_transition (c c' : config) (ev : event) :
  consistent c -> status_tells c -> transition c ev c' -> status_tells c'.
Proof.
  intros Hc Htells Hmove.
  destruct Hmove as [c p Hnone Hfree Hit | c p n Hnone Hfree Hit | c p Hbusy
                    | c Hnone Hfree | c Hbusy
                    | p n a done r Hpos Hleft | p n a done e Hpos Hleft Hlast
                    | p n a done e Hpos Hleft Hretry | p n a done Hpos Hleft].
  - reflexivity.
  - reflexivity.
  - destruct Hc as [h done Hfree _ _ _ _ _ | done q n a Hpos Hleft _
                   | done q n a Hpos Hleft _]; simpl in Hbusy.
    + congruence.
    + unfold status_tells in *; simpl in *.
      destruct (a =? 0); exact Htells.
    + exact Htells.
  - reflexivity.
  - exact Htells.
  - unfold status_tells; simpl. eexists _, _. repeat split.
  - unfold status_tells; simpl. eexists _, _. repeat split.
  - unfold status_tells; simpl. lia.
  - unfold status_tells; simpl.
    destruct (Z.eqb_spec a 0); simpl; lia.
Qed.

Lemma reachable_status_tells (c : config) : reachable c -> status_tells c.
Proof.
  induction 1 as [ | c ev c' Hreach IH Hstep].
  - reflexivity.
  - pose proof (reachable_consistent c Hreach) as Hc.
    exact (status_tells_transition c c' ev Hc IH
             (step_transition c c' ev Hc Hstep)).
Qed.

(** What the status tells.  In every reachable configuration: Idle means
    the hook is as it was mounted; Pending means no retry has been made;
    Retrying means the retry count is between 1 and [maxRetries]; Success
    and Error mean that the last promise of [submit] that settled was
    fulfilled with the result shown, or rejected with the error shown, by a
    call that made one request more than the retry count shown. *)
Theorem status_tells_the_rest (c : config) :
  reachable c ->
  match status (state c) with
  | IDLE => state c = mounted
  | PENDING => retryCount (state c) = 0
  | RETRYING => 1 <= retryCount (state c) <= maxRetries
  | SUCCESS =>
      exists f rest,
        returned c = f :: rest /\
        settlement f = Fulfilled (result (state c)) /\
        made f = repeat (given f) (S (Z.to_nat (retryCount (state c))))
  | ERROR =>
      exists f rest,
        returned c = f :: rest /\
        settlement f = RejectedWith (error (state c)) /\
        made f = repeat (given f) (S (Z.to_nat (retryCount (state c))))
  end.
Proof.
  intros Hreach. pose proof (reachable_status_tells c Hreach) as Htells.
  unfold status_tells in Htells.
  destruct (status (state c)); exact Htells.
Qed.

(** The retry count moves by one.  In a reachable configuration a timer
    changes nothing the hook shows; an answer or a last rejection leaves the
    retry count as it is; a rejection that is retried adds one to it. *)
Theorem retryCount_moves_by_one (c c' : config) (ev : event) :
  reachable c ->
  step c ev = Some c' ->
  match ev with
  | TimerFires _ => state c' = state c
  | RequestSettles _ _ =>
      (running c' = [] /\ retryCount (state c') = retryCount (state c)) \/
      (running c' <> [] /\ status (state c') = RETRYING /\
       retryCount (state c') = retryCount (state c) + 1)
  | _ => True
  end.
Proof.
  intros Hreach Hstep. apply reachable_consistent in Hreach.
  apply (step_transition c c' ev Hreach) in Hstep.
  destruct Hstep as [c p Hnone Hfree Hit | c p n Hnone Hfree Hit | c p Hbusy
                    | c Hnone Hfree | c Hbusy
                    | p n a done r Hpos Hleft | p n a done e Hpos Hleft Hlast
                    | p n a done e Hpos Hleft Hretry | p n a done Hpos Hleft];
    try exact I.
  - left. split; reflexivity.
  - left. split; reflexivity.
  - right. simpl. repeat split. discriminate.
  - simpl. destruct (Z.eqb_spec a 0); [lia | reflexivity].
Qed.

(** An accepted call of [submit] forgets what came before: calling [reset]
    first makes no difference, in any configuration, and calling [reset]
    twice is calling it once. *)
Theorem reset_before_submit_is_redundant (c : config) (payload : value) :
  exec c [CallReset; CallSubmit payload] = exec c [CallSubmit payload] /\
  exec c [CallReset; CallReset] = exec c [CallReset].
Proof.
  destruct (inFlightRef (state c)) eqn:Hflag.
  - split; rewrite exec_cons, step_reset_busy by exact Hflag; reflexivity.
  - split; rewrite exec_cons, step_reset_free by exact Hflag.
    + rewrite !exec_cons, !step_submit_free by (exact Hflag || reflexivity).
      reflexivity.
    + rewrite !exec_cons, step_reset_free by reflexivity.
      rewrite step_reset_free by exact Hflag. reflexivity.
Qed.

(* ================================================================== *)
(** ** Properties of the mock endpoint *)
(* ================================================================== *)

Lemma lookup_assign_same (name : string) (x : value)
    (fields : list (string * value)) :
  lookup name (assign name x fields) = Some x.
Proof.
  induction fields as [ | [k v] rest IH]; simpl.
  - rewrite String.eqb_refl. reflexivity.
  - destruct (String.eqb k name) eqn:Hk; simpl; rewrite Hk.
    + reflexivity.
    + exact IH.
Qed.

Lemma lookup_assign_other (name other : string) (x : value)
    (fields : list (string * value)) :
  other <> name ->
  lookup other (assign name x fields) = lookup other fields.
Proof.
  intros Hne. induction fields as [ | [k v] rest IH]; simpl.
  - destruct (String.eqb_spec name other) as [Heq | _];
      [congruence | reflexivity].
  - destruct (String.eqb_spec k name) as [Hk | Hk]; simpl.
    + subst k. destruct (String.eqb_spec name other) as [Heq | _];
        [congruence | reflexivity].
    + destruct (String.eqb k other); [reflexivity | exact IH].
Qed.

(** How the promise of a reply settles, if there is a promise. *)
Lemma reply_cases (r : reply) (o : outcome) :
  (r = Settles o \/ exists ms, r = SettlesAfter ms o) ->
  match r with
  | Settles o' | SettlesAfter _ o' => o' = o
  | Throws _ => False
  end.
Proof. intros [-> | [ms ->]]; reflexivity. Qed.

(** Every rejection of the mock is one the hook retries: whatever the
    payload, the counter and the draws, the value a promise of the mock is
    rejected with carries status 503. *)
Theorem mock_rejections_are_retryable (counter : Z) (data : value)
    (ch : chance) (e : value) :
  (snd (submitForm counter data ch) = Settles (Rejected e) \/
   exists ms, snd (submitForm counter data ch) = SettlesAfter ms (Rejected e)) ->
  retryable e = true /\ member e "status" = Some (num 503).
Proof.
  intros Hreply. apply reply_cases in Hreply. unfold submitForm in Hreply.
  destruct (member data "email") as [address | ]; [ | destruct Hreply].
  destruct (strict_equals address (JString "error@example.com")).
  { simpl in Hreply. injection Hreply as <-. split; reflexivity. }
  destruct (strict_equals address (JString "retry@example.com")).
  { destruct (counter + 1 <? 3); simpl in Hreply.
    - injection Hreply as <-. split; reflexivity.
    - discriminate. }
  destruct (drawn_outcome ch =? 0); [discriminate | ].
  destruct (drawn_outcome ch =? 1); [discriminate | ].
  simpl in Hreply. injection Hreply as <-. split; reflexivity.
Qed.

(** Every answer of the mock echoes the payload: it has [success: true] and
    a [data] object with a non-empty string [id] made by the mock and, under
    every other name, what the payload has under that name. *)
Theorem mock_answer_echoes_payload (counter : Z) (data : value)
    (ch : chance) (r : value) :
  (snd (submitForm counter data ch) = Settles (Resolved r) \/
   exists ms, snd (submitForm counter data ch) = SettlesAfter ms (Resolved r)) ->
  exists id fields,
    r = accepted data id /\
    id <> "" /\
    member r "success" = Some (JBool true) /\
    member r "data" = Some (JObject fields) /\
    lookup "id" fields = Some (JString id) /\
    forall name, name <> "id" -> lookup name fields = lookup name (spread data).
Proof.
  intros Hreply. apply reply_cases in Hreply.
  assert (Hshape : forall id, id <> "" -> r = accepted data id ->
            exists id fields,
              r = accepted data id /\ id <> "" /\
              member r "success" = Some (JBool true) /\
              member r "data" = Some (JObject fields) /\
              lookup "id" fields = Some (JString id) /\
              forall name, name <> "id" ->
                lookup name fields = lookup name (spread data)).
  { intros id Hid ->. exists id, (assign "id" (JString id) (spread data)).
    repeat split; try assumption.
    - apply lookup_assign_same.
    - intros name Hname. apply lookup_assign_other. exact Hname. }
  unfold submitForm in Hreply.
  destruct (member data "email") as [address | ]; [ | destruct Hreply].
  destruct (strict_equals address (JString "error@example.com"));
    [discriminate | ].
  destruct (strict_equals address (JString "retry@example.com")).
  { destruct (counter + 1 <? 3); [discriminate | ].
    simpl in Hreply. injection Hreply as <-.
    eapply Hshape; [ | reflexivity]. discriminate. }
  destruct (drawn_outcome ch =? 0).
  { simpl in Hreply. injection Hreply as <-.
    eapply Hshape; [ | reflexivity]. discriminate. }
  destruct (drawn_outcome ch =? 1); [ | discriminate].
  simpl in Hreply. injection Hreply as <-.
  eapply Hshape; [ | reflexivity]. discriminate.
Qed.

(** The counter of the mock.  A call leaves a counter between 0 and 2
    between 0 and 2.  For the address retry@example.com the counter goes
    round 0, 1, 2, and the call with the counter at 2 is the one that is
    answered; for every other payload the counter stays as it is. *)
Theorem mock_counter_goes_round (counter : Z) (data : value) (ch : chance) :
  0 <= counter <= 2 ->
  0 <= fst (submitForm counter data ch) <= 2 /\
  (member data "email" = Some (JString "retry@example.com") ->
   fst (submitForm counter data ch) = (counter + 1) mod 3 /\
   (counter = 2 <->
    exists r, snd (submitForm counter data ch) = Settles (Resolved r))) /\
  (member data "email" <> Some (JString "retry@example.com") ->
   fst (submitForm counter data ch) = counter).
Proof.
  intros Hrange. unfold submitForm.
  destruct (member data "email") as [address | ] eqn:Hmail.
  - destruct (strict_equals address (JString "error@example.com")) eqn:Herr.
    + simpl. split; [lia | split].
      * intros Heq. injection Heq as ->. discriminate.
      * reflexivity.
    + destruct (strict_equals address (JString "retry@example.com")) eqn:Hre.
      * destruct (Z.ltb_spec (counter + 1) 3) as [Hlt | Hge]; simpl.
        -- split; [lia | split].
           ++ intros _. split.
              ** rewrite Z.mod_small by lia. reflexivity.
              ** split; [lia | intros [r Hr]; discriminate].
           ++ intros Hne. exfalso. apply Hne.
              destruct address; try discriminate. simpl in Hre.
              apply String.eqb_eq in Hre. subst. reflexivity.
        -- split; [lia | split].
           ++ intros _. split.
              ** replace counter with 2 by lia. reflexivity.
              ** split; [intros _; eexists; reflexivity | lia].
           ++ intros Hne. exfalso. apply Hne.
              destruct address; try discriminate. simpl in Hre.
              apply String.eqb_eq in Hre. subst. reflexivity.
      * assert (Hother : address <> JString "retry@example.com").
        { intros ->. discriminate. }
        destruct (drawn_outcome ch =? 0); [ | destruct (drawn_outcome ch =? 1)];
          simpl; (split; [lia | split; [ | reflexivity]]);
          intros Heq; injection Heq as ->; contradiction.
  - simpl. split; [lia | split; [discriminate | reflexivity]].
Qed.

(* ================================================================== *)
(** ** The hook in front of the mock *)
(* ================================================================== *)

Lemma submitForm_forced (counter : Z) (data : value) (ch : chance) :
  member data "email" = Some (JString "error@example.com") ->
  submitForm counter data ch = (counter, Settles (Rejected forced_failure)).
Proof. intros Hmail. unfold submitForm. rewrite Hmail. reflexivity. Qed.

Lemma submitForm_hiccup (counter : Z) (data : value) (ch : chance) :
  member data "email" = Some (JString "retry@example.com") ->
  counter + 1 < 3 ->
  submitForm counter data ch = (counter + 1, Settles (Rejected hiccup)).
Proof.
  intros Hmail Hlt. unfold submitForm. rewrite Hmail. simpl.
  replace (counter + 1 <? 3) with true by (symmetry; apply Z.ltb_lt; exact Hlt).
  reflexivity.
Qed.

Lemma submitForm_recovered (counter : Z) (data : value) (ch : chance) :
  member data "email" = Some (JString "retry@example.com") ->
  3 <= counter + 1 ->
  submitForm counter data ch =
  (0, Settles (Resolved (accepted data ("mock-recovered-" ++ decimal (now ch))))).
Proof.
  intros Hmail Hge. unfold submitForm. rewrite Hmail. simpl.
  replace (counter + 1 <? 3) with false by (symmetry; apply Z.ltb_ge; exact Hge).
  reflexivity.
Qed.


(** A call of [submit] that passes the guard, with the mock settling its
    first request. *)
Lemma happen_submit (c : config) (counter counter' : Z) (box : option outcome)
    (payload : value) (ch : chance) (n : nat) (o : outcome) :
  running c = [] -> inFlightRef (state c) = false -> iterations = S n ->
  submitForm counter payload ch = (counter', Settles o) ->
  happen (mkWorld c counter box) (Submits payload ch) =
  Some (mkWorld (requesting payload n 0 (returned c)) counter' (Some o)).
Proof.
  intros Hnone Hfree Hit Hmock. unfold happen, outside, invoked_by.
  cbn [controller retryAttempt inbox].
  rewrite (step_free_submit c payload n Hnone Hfree Hit).
  rewrite run_submit_free by exact Hfree. rewrite Hit.
  cbn [invoked]. rewrite Hmock. reflexivity.
Qed.

(** The delay is over and the mock settles the next request. *)
Lemma happen_elapses (payload : value) (n : nat) (attempt : Z)
    (done : list finished) (counter counter' : Z) (box : option outcome)
    (ch : chance) (o : outcome) :
  0 < attempt ->
  submitForm counter payload ch = (counter', Settles o) ->
  happen (mkWorld (sleeping payload n attempt done) counter box) (Elapses ch) =
  Some (mkWorld (requesting payload n attempt done) counter' (Some o)).
Proof.
  intros Hpos Hmock. unfold happen, outside.
  cbn [controller retryAttempt inbox].
  rewrite step_sleeping_timer by exact Hpos.
  change (invoked_by (sleeping payload n attempt done) (TimerFires 0))
    with [payload].
  cbv beta iota. rewrite Hmock. reflexivity.
Qed.

Lemma happen_answers (c c' : config) (counter : Z) (o : outcome) :
  step c (RequestSettles 0 o) = Some c' ->
  happen (mkWorld c counter (Some o)) Answers = Some (mkWorld c' counter None).
Proof.
  intros Hstep. unfold happen. cbn [controller retryAttempt inbox].
  rewrite Hstep. reflexivity.
Qed.

Lemma play_cons (w : world) (x : happening) (xs : list happening) :
  play w (x :: xs) =
  match happen w x with
  | Some w' => play w' xs
  | None => None
  end.
Proof. reflexivity. Qed.

(** One rejection of the mock that the hook retries, and the delay. *)
Lemma play_failed_round (payload e : value) (o : outcome) (n : nat)
    (attempt counter counter' : Z) (done : list finished) (ch : chance)
    (rest : list happening) :
  0 <= attempt -> attempt < maxRetries -> retryable e = true ->
  submitForm counter payload ch = (counter', Settles o) ->
  play (mkWorld (requesting payload (S n) attempt done) counter
                (Some (Rejected e)))
       (failed_round ch ++ rest) =
  play (mkWorld (requesting payload n (attempt + 1) done) counter' (Some o))
       rest.
Proof.
  intros Hpos Hlt Hretry Hmock. cbn [failed_round app].
  rewrite play_cons,
    (happen_answers _ _ _ _
       (step_requesting_retry payload e n attempt done Hpos Hretry Hlt)).
  assert (Hnext : 0 < attempt + 1) by lia.
  rewrite play_cons,
    (happen_elapses payload n (attempt + 1) done counter counter' None ch o
       Hnext Hmock).
  reflexivity.
Qed.

Lemma play_forced_rounds (payload : value) (done : list finished)
    (counter : Z) (chs : list chance) :
  member payload "email" = Some (JString "error@example.com") ->
  forall (n : nat) (attempt : Z) (rest : list happening),
    0 <= attempt ->
    Z.of_nat (List.length chs + n) = maxRetries - attempt ->
    play (mkWorld (requesting payload (List.length chs + n) attempt done)
                  counter (Some (Rejected forced_failure)))
         (flat_map failed_round chs ++ rest) =
    play (mkWorld (requesting payload n (attempt + Z.of_nat (List.length chs))
                              done)
                  counter (Some (Rejected forced_failure)))
         rest.
Proof.
  intros Hmail.
  induction chs as [ | ch chs IH]; intros n attempt rest Hpos Hleft.
  - simpl. rewrite Z.add_0_r. reflexivity.
  - cbn [flat_map List.length Nat.add]. cbn [List.length Nat.add] in Hleft.
    rewrite <- app_assoc.
    rewrite (play_failed_round payload forced_failure
               (Rejected forced_failure) _ attempt counter counter done ch);
      [ | lia | lia | reflexivity | apply submitForm_forced; exact Hmail].
    rewrite IH by lia. do 3 f_equal. lia.
Qed.

(** The address error@example.com.  From a reachable configuration with no
    submission in flight, a call of [submit] with a payload for this address
    ends with status Error after [maxRetries + 1] requests, whatever the
    counter and the draws of the mock; the counter is left as it was. *)
Theorem forced_failure_exhausts (c : config) (counter : Z)
    (box : option outcome) (payload : value) (ch : chance)
    (chs : list chance) :
  reachable c ->
  inFlightRef (state c) = false ->
  member payload "email" = Some (JString "error@example.com") ->
  Z.of_nat (List.length chs) = maxRetries ->
  play (mkWorld c counter box)
       (Submits payload ch :: flat_map failed_round chs ++ [Answers]) =
  Some (mkWorld
          (mkConfig (mkHook false ERROR maxRetries forced_failure JNull) []
             (mkFinished payload (repeat payload (S (List.length chs)))
                         (RejectedWith forced_failure) :: returned c))
          counter None).
Proof.
  intros Hreach Hfree Hmail Hlen. apply reachable_consistent in Hreach.
  pose proof (consistent_free_inv c Hreach Hfree) as Hnone.
  assert (Hit : iterations = S (List.length chs + 0))
    by (unfold iterations; lia).
  rewrite play_cons,
    (happen_submit c counter counter box payload ch _ _ Hnone Hfree Hit
       (submitForm_forced counter payload ch Hmail)).
  rewrite play_forced_rounds by (assumption || lia).
  assert (Hlast : retryable forced_failure
                  && (0 + Z.of_nat (List.length chs) <? maxRetries) = false)
    by (apply andb_false_intro2; apply Z.ltb_ge; lia).
  rewrite play_cons, (happen_answers _ _ _ _
    (step_requesting_final payload forced_failure 0 _ (returned c) Hlast)).
  simpl. rewrite Nat2Z.id, Hlen. reflexivity.
Qed.

(** The address retry@example.com, recovering.  With the counter of the
    mock at [counter], between 0 and 2, and at least [2 - counter] retries
    allowed, a call of [submit] with a payload for this address succeeds at
    request number [3 - counter]: the hook shows Success with retry count
    [2 - counter] and the answer made at the last request, and the counter
    is back at 0. *)
Theorem hiccups_recover (c : config) (counter : Z) (box : option outcome)
    (payload : value) (ch : chance) (chs : list chance) :
  reachable c ->
  inFlightRef (state c) = false ->
  member payload "email" = Some (JString "retry@example.com") ->
  0 <= counter <= 2 ->
  2 - counter <= maxRetries ->
  Z.of_nat (List.length chs) = 2 - counter ->
  play (mkWorld c counter box)
       (Submits payload ch :: flat_map failed_round chs ++ [Answers]) =
  Some (mkWorld
          (mkConfig
             (mkHook false SUCCESS (2 - counter) JNull
                (accepted payload
                   ("mock-recovered-" ++ decimal (now (last chs ch)))))
             []
             (mkFinished payload (repeat payload (S (List.length chs)))
                (Fulfilled
                   (accepted payload
                      ("mock-recovered-" ++ decimal (now (last chs ch)))))
                :: returned c))
          0 None).
Proof.
  intros Hreach Hfree Hmail Hrange Hbudget Hlen.
  apply reachable_consistent in Hreach.
  pose proof (consistent_free_inv c Hreach Hfree) as Hnone.
  destruct chs as [ | ch1 [ | ch2 [ | ch3 chs]]]; cbn [List.length] in Hlen;
    [ | | | lia].
  - (* the counter is at 2 *)
    assert (Hit : iterations = S (Z.to_nat maxRetries))
      by (unfold iterations; lia).
    rewrite play_cons,
      (happen_submit c counter 0 box payload ch _ _ Hnone Hfree Hit
         (submitForm_recovered counter payload ch Hmail ltac:(lia))).
    cbn [flat_map app].
    rewrite play_cons,
      (happen_answers _ _ _ _ (step_requesting_resolved payload _ _ 0 _)).
    replace (2 - counter) with 0 by lia. reflexivity.
  - (* the counter is at 1 *)
    assert (Hit : iterations = S (S (Z.to_nat (maxRetries - 1))))
      by (unfold iterations; lia).
    rewrite play_cons,
      (happen_submit c counter (counter + 1) box payload ch _ _ Hnone Hfree Hit
         (submitForm_hiccup counter payload ch Hmail ltac:(lia))).
    cbn [flat_map]. rewrite app_nil_r.
    rewrite (play_failed_round payload hiccup
               (Resolved (accepted payload
                            ("mock-recovered-" ++ decimal (now ch1))))
               _ 0 (counter + 1) 0 (returned c) ch1 [Answers]);
      [ | lia | lia | reflexivity
        | apply submitForm_recovered; [exact Hmail | lia]].
    rewrite play_cons,
      (happen_answers _ _ _ _ (step_requesting_resolved payload _ _ (0 + 1) _)).
    replace (2 - counter) with 1 by lia. reflexivity.
  - (* the counter is at 0 *)
    assert (Hit : iterations = S (S (S (Z.to_nat (maxRetries - 2)))))
      by (unfold iterations; lia).
    rewrite play_cons,
      (happen_submit c counter (counter + 1) box payload ch _ _ Hnone Hfree Hit
         (submitForm_hiccup counter payload ch Hmail ltac:(lia))).
    cbn [flat_map]. rewrite app_nil_r, <- app_assoc.
    rewrite (play_failed_round payload hiccup (Rejected hiccup) _ 0
               (counter + 1) (counter + 1 + 1) (returned c) ch1);
      [ | lia | lia | reflexivity
        | apply submitForm_hiccup; [exact Hmail | lia]].
    rewrite (play_failed_round payload hiccup
               (Resolved (accepted payload
                            ("mock-recovered-" ++ decimal (now ch2))))
               _ (0 + 1) (counter + 1 + 1) 0 (returned c) ch2 [Answers]);
      [ | lia | lia | reflexivity
        | apply submitForm_recovered; [exact Hmail | lia]].
    rewrite play_cons,
      (happen_answers _ _ _ _
         (step_requesting_resolved payload _ _ (0 + 1 + 1) _)).
    replace (2 - counter) with 2 by lia. reflexivity.
Qed.

(** The address retry@example.com, not recovering.  When the retries
    allowed do not reach the third request ([counter + maxRetries < 2]), the
    call ends with status Error after [maxRetries + 1] requests, and the
    counter of the mock is not put back: it stays at
    [counter + maxRetries + 1] for the next submission. *)
Theorem hiccups_outlast_retries (c : config) (counter : Z)
    (box : option outcome) (payload : value) (ch : chance)
    (chs : list chance) :
  reachable c ->
  inFlightRef (state c) = false ->
  member payload "email" = Some (JString "retry@example.com") ->
  0 <= counter ->
  0 <= maxRetries ->
  counter + maxRetries < 2 ->
  Z.of_nat (List.length chs) = maxRetries ->
  play (mkWorld c counter box)
       (Submits payload ch :: flat_map failed_round chs ++ [Answers]) =
  Some (mkWorld
          (mkConfig (mkHook false ERROR maxRetries hiccup JNull) []
             (mkFinished payload (repeat payload (S (List.length chs)))
                         (RejectedWith hiccup) :: returned c))
          (counter + maxRetries + 1) None).
Proof.
  intros Hreach Hfree Hmail Hcounter Hmax Hshort Hlen.
  apply reachable_consistent in Hreach.
  pose proof (consistent_free_inv c Hreach Hfree) as Hnone.
  destruct chs as [ | ch1 [ | ch2 chs]]; cbn [List.length] in Hlen;
    [ | | lia].
  - (* no retry *)
    assert (Hit : iterations = S O) by (unfold iterations; lia).
    rewrite play_cons,
      (happen_submit c counter (counter + 1) box payload ch _ _ Hnone Hfree Hit
         (submitForm_hiccup counter payload ch Hmail ltac:(lia))).
    cbn [flat_map app].
    assert (Hlast : retryable hiccup && (0 <? maxRetries) = false)
      by (apply andb_false_intro2; apply Z.ltb_ge; lia).
    rewrite play_cons,
      (happen_answers _ _ _ _
         (step_requesting_final payload hiccup O 0 (returned c) Hlast)).
    assert (Hnone_left : maxRetries = 0) by lia.
    cbn [play]. rewrite Hnone_left.
    replace (counter + 0 + 1) with (counter + 1) by lia. reflexivity.
  - (* one retry *)
    assert (Hit : iterations = S (S O)) by (unfold iterations; lia).
    rewrite play_cons,
      (happen_submit c counter (counter + 1) box payload ch _ _ Hnone Hfree Hit
         (submitForm_hiccup counter payload ch Hmail ltac:(lia))).
    cbn [flat_map]. rewrite app_nil_r.
    rewrite (play_failed_round payload hiccup (Rejected hiccup) O 0
               (counter + 1) (counter + 1 + 1) (returned c) ch1 [Answers]);
      [ | lia | lia | reflexivity
        | apply submitForm_hiccup; [exact Hmail | lia]].
    assert (Hlast : retryable hiccup && (0 + 1 <? maxRetries) = false)
      by (apply andb_false_intro2; apply Z.ltb_ge; lia).
    rewrite play_cons,
      (happen_answers _ _ _ _
         (step_requesting_final payload hiccup O (0 + 1) (returned c) Hlast)).
    assert (Hone_left : maxRetries = 0 + 1) by lia.
    cbn [play]. rewrite Hone_left.
    replace (counter + (0 + 1) + 1) with (counter + 1 + 1) by lia.
    reflexivity.
Qed.


(* ================================================================== *)
(** ** Properties of the form *)
(* ================================================================== *)



(** "Send Another".  [handleReset] empties both fields in every case.  With
    the guard released it also puts the hook back as it was mounted, so the
    page is the first page again; with the guard held the hook is left as
    it is. *)
Theorem handleReset_gives_first_page (c : config) (e a : string) :
  reachable c ->
  (inFlightRef (state c) = false ->
   handleReset (mkPage c e a)
   = Some (mkPage (mkConfig mounted [] (returned c)) "" "") /\
   render mounted = render (state (hooked first_page))) /\
  (inFlightRef (state c) = true ->
   handleReset (mkPage c e a) = Some (mkPage c "" "")).
Proof.
  intros Hreach. apply reachable_consistent in Hreach.
  unfold handleReset. cbn [hooked]. split.
  - intros Hfree. rewrite step_reset_free by exact Hfree.
    rewrite (consistent_free_inv c Hreach Hfree). split; reflexivity.
  - intros Hbusy. rewrite step_reset_busy by exact Hbusy. reflexivity.
Qed.

(** An answer of the mock always shows its identifier: when the hook shows
    Success with an answer of the mock as result, the success page has the
    "ID:" line, with the identifier the mock made. *)
Theorem mock_answer_shows_id (counter : Z) (data : value) (ch : chance)
    (r : value) (h : hook) :
  (snd (submitForm counter data ch) = Settles (Resolved r) \/
   exists ms, snd (submitForm counter data ch) = SettlesAfter ms (Resolved r)) ->
  status h = SUCCESS ->
  result h = r ->
  exists id, r = accepted data id /\
             render h = SuccessView (Element (JString id)).
Proof.
  intros Hreply Hstatus Hresult.
  destruct (mock_answer_echoes_payload counter data ch r Hreply)
    as (id & fields & Hr & Hid & _ & Hdata & Hlookup & _).
  exists id. split; [exact Hr | ].
  assert (Hshown : optional_member (optional_member r "data") "id"
                   = JString id).
  { unfold optional_member at 2. rewrite Hdata.
    unfold optional_member, member. rewrite Hlookup. reflexivity. }
  unfold render. rewrite Hstatus, Hresult. cbv zeta. rewrite Hshown.
  destruct id as [ | ch0 rest]; [congruence | reflexivity].
Qed.

(* ================================================================== *)
(** ** Further invariants of the scheduler *)
(* ================================================================== *)

(** A call in flight waits for one thing.  While the guard is held, in a
    reachable configuration, either the timer of the suspended call can
    fire and no answer can arrive, or any answer can arrive and no timer
    can fire; and a sleeping call sleeps for [retryDelayMs]. *)
Theorem call_in_flight_waits_for_one_thing (c : config) :
  reachable c ->
  inFlightRef (state c) = true ->
  (exists t k,
     running c = [t] /\ suspended_at t = AwaitSleep retryDelayMs k /\
     (exists c', step c (TimerFires 0) = Some c') /\
     (forall o, step c (RequestSettles 0 o) = None)) \/
  (exists t k,
     running c = [t] /\ suspended_at t = AwaitSubmitForm (argument t) k /\
     (forall o, exists c', step c (RequestSettles 0 o) = Some c') /\
     step c (TimerFires 0) = None).
Proof.
  intros Hreach Hbusy. apply reachable_consistent in Hreach.
  destruct Hreach as [h done Hfree _ _ _ _ _ | done payload n attempt Hpos Hleft _
                     | done payload n attempt Hpos Hleft _]; simpl in Hbusy.
  - congruence.
  - right. eexists _, _. split; [reflexivity | ].
    split; [apply at_request_unfold | ]. split; [ | reflexivity].
    intros o. eexists. reflexivity.
  - left. eexists _, _. split; [reflexivity | ].
    split; [apply at_sleep_unfold | ]. split; [ | reflexivity].
    eexists. reflexivity.
Qed.

Lemma unsent_transition (c c' : config) (ev : event) :
  Forall (fun f => made f = [] -> settlement f = Fulfilled JUndefined)
         (returned c) ->
  transition c ev c' ->
  Forall (fun f => made f = [] -> settlement f = Fulfilled JUndefined)
         (returned c').
Proof.
  intros Hall Hmove.
  destruct Hmove as [c p Hnone Hfree Hit | c p n Hnone Hfree Hit | c p Hbusy
                    | c Hnone Hfree | c Hbusy
                    | p n a done r Hpos Hleft | p n a done e Hpos Hleft Hlast
                    | p n a done e Hpos Hleft Hretry | p n a done Hpos Hleft];
    simpl in *; try assumption;
    constructor; try assumption; simpl; intros; try reflexivity; discriminate.
Qed.

(** A call of [submit] that made no request was fulfilled with [undefined]:
    in every reachable configuration, a promise of [submit] that was
    rejected, or fulfilled with anything else, belongs to a call that
    reached the endpoint. *)
Theorem unsent_calls_fulfil_undefined (c : config) :
  reachable c ->
  Forall (fun f => made f = [] -> settlement f = Fulfilled JUndefined)
         (returned c).
Proof.
  induction 1 as [ | c ev c' Hreach IH Hstep].
  - constructor.
  - pose proof (reachable_consistent c Hreach) as Hc.
    exact (unsent_transition c c' ev IH (step_transition c c' ev Hc Hstep)).
Qed.

(* ================================================================== *)
(** ** From the form to the mock and back *)
(* ================================================================== *)

(** The address error@example.com typed in the form.  With any amount and
    any key drawn, [handleSubmit] calls [submit]; after [maxRetries + 1]
    requests the form is enabled again, the button says "Pay Now", and the
    failure message is the one of the mock. *)
Theorem forced_address_through_the_form (c : config) (counter : Z)
    (box : option outcome) (sum drawn : string) (ch : chance)
    (chs : list chance) :
  reachable c ->
  inFlightRef (state c) = false ->
  sum <> "" ->
  Z.of_nat (List.length chs) = maxRetries ->
  exists payload w,
    handleSubmit "error@example.com" sum drawn = Some (CallSubmit payload) /\
    play (mkWorld c counter box)
         (Submits payload ch :: flat_map failed_round chs ++ [Answers])
    = Some w /\
    retryAttempt w = counter /\
    render (state (controller w)) =
    FormView false "Pay Now" None
      (Some (JString "Service Temporarily Unavailable (Forced)")).
Proof.
  intros Hreach Hfree Hsum Hlen. unfold handleSubmit.
  destruct (String.eqb_spec sum "") as [Hempty | _]; [contradiction | ].
  simpl. eexists _, _. split; [reflexivity | ].
  split; [apply forced_failure_exhausts; (assumption || reflexivity) | ].
  split; reflexivity.
Qed.

(** The address retry@example.com typed in the form, with the counter of
    the mock at 0 and at least two retries allowed.  The third request is
    answered; the success page shows the identifier made by the mock; the
    answer carries the key drawn by [handleSubmit]; and "Send Another"
    gives the first page back. *)
Theorem recovering_address_through_the_form (c : config)
    (box : option outcome) (sum drawn : string) (ch ch1 ch2 : chance) :
  reachable c ->
  inFlightRef (state c) = false ->
  sum <> "" ->
  2 <= maxRetries ->
  exists payload w,
    handleSubmit "retry@example.com" sum drawn = Some (CallSubmit payload) /\
    play (mkWorld c 0 box)
         [Submits payload ch; Answers; Elapses ch1; Answers; Elapses ch2;
          Answers]
    = Some w /\
    retryAttempt w = 0 /\
    render (state (controller w)) =
    SuccessView
      (Element (JString ("mock-recovered-" ++ decimal (now ch2)))) /\
    optional_member (optional_member (result (state (controller w))) "data")
                    "idempotencyKey" = JString drawn /\
    handleReset (mkPage (controller w) "retry@example.com" sum) =
    Some (mkPage (mkConfig mounted [] (returned (controller w))) "" "").
Proof.
  intros Hreach Hfree Hsum Hmax. unfold handleSubmit.
  destruct (String.eqb_spec sum "") as [Hempty | _]; [contradiction | ].
  simpl orb. cbv iota.
  eexists _, _. split; [reflexivity | ].
  split.
  { apply (hiccups_recover c 0 box _ ch [ch1; ch2] Hreach Hfree);
      [reflexivity | lia | lia | reflexivity]. }
  repeat split.
Qed.

End Controller.

(* ================================================================== *)
(** ** The form's controller: [maxRetries: 3, retryDelayMs: 2000] *)
(* ================================================================== *)

(** The scenario of the design document: the endpoint rejects the first two
    requests with 503 and answers the third. *)
Example two_glitches_then_success :
  shown 3 2000 start
    (CallSubmit payment
       :: retry_round unavailable ++ retry_round unavailable
       ++ [RequestSettles 0 (Resolved receipt)]) =
  [(PENDING, 0); (RETRYING, 1); (RETRYING, 1); (RETRYING, 2); (RETRYING, 2);
   (SUCCESS, 2)] /\
  exec 3 2000 start
    (CallSubmit payment
       :: retry_round unavailable ++ retry_round unavailable
       ++ [RequestSettles 0 (Resolved receipt)]) =
  Some (mkConfig (mkHook false SUCCESS 2 JNull receipt) []
          [mkFinished payment [payment; payment; payment]
                      (Fulfilled receipt)]).
Proof. split; reflexivity. Qed.

(** The test 'handles hard failure (non-503)'. *)
Example hard_failure_is_not_retried :
  exec 3 2000 start [CallSubmit payment; RequestSettles 0 (Rejected bad_request)] =
  Some (mkConfig (mkHook false ERROR 0 bad_request JNull) []
          [mkFinished payment [payment] (RejectedWith bad_request)]).
Proof. reflexivity. Qed.

(** A second click and a reset during the request leave no trace but the
    settled promise of the click. *)
Example second_click_is_turned_away :
  exec 3 2000 start [CallSubmit payment; CallSubmit payment; CallReset] =
  Some (requesting 3 2000 payment 3 0
          [mkFinished payment [] (Fulfilled JUndefined)]).
Proof. reflexivity. Qed.

(** With a negative [maxRetries] the loop body never runs: the call ends at
    once and the status stays Pending with the guard released. *)
Example negative_maxRetries_never_attempts :
  exec (-1) 2000 start [CallSubmit payment] =
  Some (mkConfig (mkHook false PENDING 0 JNull JNull) []
          [mkFinished payment [] (Fulfilled JUndefined)]).
Proof. reflexivity. Qed.

Example other_shapes_are_terminal :
  retryable unavailable = true /\
  retryable bad_request = false /\
  retryable (JObject [("status", JString "503")]) = false /\
  retryable (JObject [("message", JString "Network Error")]) = false /\
  retryable (num 503) = false /\
  retryable (JString "503") = false /\
  retryable JNull = false /\
  retryable JUndefined = false.
Proof. repeat split; reflexivity. Qed.

Lemma first_request_reachable :
  reachable 3 2000 (requesting 3 2000 payment 3 0 []).
Proof.
  apply (exec_reachable 3 2000 [CallSubmit payment] start).
  - apply reachable_start.
  - reflexivity.
Qed.

Lemma hard_failure_reachable :
  reachable 3 2000
    (mkConfig (mkHook false ERROR 0 bad_request JNull) []
       [mkFinished payment [payment] (RejectedWith bad_request)]).
Proof.
  apply (exec_reachable 3 2000
           [CallSubmit payment; RequestSettles 0 (Rejected bad_request)] start).
  - apply reachable_start.
  - reflexivity.
Qed.

(** *** The properties at the form's controller *)

Lemma submit_single_flight_witness :
  0 <= 3 /\
  reachable 3 2000 (requesting 3 2000 payment 3 0 []) /\
  step 3 2000 (requesting 3 2000 payment 3 0 []) (CallSubmit payment) =
  Some (turned_away (requesting 3 2000 payment 3 0 []) payment).
Proof.
  split; [lia | split; [exact first_request_reachable | ]].
  apply (submit_single_flight 3 2000 (requesting 3 2000 payment 3 0 []));
    [lia | exact first_request_reachable | reflexivity].
Defined.

Lemma retry_bound_witness :
  0 <= 3 /\
  reachable 3 2000 (requesting 3 2000 payment 3 0 []) /\
  0 <= retryCount (state (requesting 3 2000 payment 3 0 [])) <= 3.
Proof.
  split; [lia | split; [exact first_request_reachable | ]].
  apply (retry_bound 3 2000 (requesting 3 2000 payment 3 0 []));
    [lia | exact first_request_reachable].
Defined.

Lemma success_after_transient_failures_witness :
  reachable 3 2000 start /\
  inFlightRef (state start) = false /\
  Z.of_nat (List.length [unavailable; unavailable]) <= 3 /\
  Forall (fun e => retryable e = true) [unavailable; unavailable] /\
  exec 3 2000 start
    (CallSubmit payment
       :: flat_map retry_round [unavailable; unavailable]
       ++ [RequestSettles 0 (Resolved receipt)]) =
  Some (mkConfig (mkHook false SUCCESS 2 JNull receipt) []
          [mkFinished payment [payment; payment; payment]
                      (Fulfilled receipt)]).
Proof.
  assert (Hall : Forall (fun e => retryable e = true)
                        [unavailable; unavailable])
    by (repeat constructor).
  split; [apply reachable_start | ].
  split; [reflexivity | ].
  split; [simpl; lia | ].
  split; [exact Hall | ].
  apply (success_after_transient_failures 3 2000 start payment receipt
           [unavailable; unavailable]);
    [apply reachable_start | reflexivity | simpl; lia | exact Hall].
Defined.

Lemma exhaustion_witness :
  reachable 3 2000 start /\
  inFlightRef (state start) = false /\
  Z.of_nat (List.length [unavailable; unavailable; unavailable]) = 3 /\
  Forall (fun e => retryable e = true)
         ([unavailable; unavailable; unavailable] ++ [unavailable]) /\
  exec 3 2000 start
    (CallSubmit payment
       :: flat_map retry_round [unavailable; unavailable; unavailable]
       ++ [RequestSettles 0 (Rejected unavailable)]) =
  Some (mkConfig (mkHook false ERROR 3 unavailable JNull) []
          [mkFinished payment [payment; payment; payment; payment]
                      (RejectedWith unavailable)]).
Proof.
  assert (Hall : Forall (fun e => retryable e = true)
                        ([unavailable; unavailable; unavailable]
                         ++ [unavailable]))
    by (repeat constructor).
  split; [apply reachable_start | ].
  split; [reflexivity | ].
  split; [reflexivity | ].
  split; [exact Hall | ].
  apply (exhaustion 3 2000 start payment unavailable
           [unavailable; unavailable; unavailable]);
    [apply reachable_start | reflexivity | reflexivity | exact Hall].
Defined.

Lemma terminal_failure_propagates_witness :
  reachable 3 2000 start /\
  exec 3 2000 start [CallSubmit payment; RequestSettles 0 (Rejected bad_request)] =
  Some (mkConfig (mkHook false ERROR 0 bad_request JNull) []
          [mkFinished payment [payment] (RejectedWith bad_request)]).
Proof.
  split; [apply reachable_start | ].
  apply (terminal_failure_propagates 3 2000 start (reachable_start 3 2000));
    [lia | reflexivity | reflexivity].
Defined.

Lemma reset_discipline_witness :
  0 <= 3 /\
  reachable 3 2000
    (mkConfig (mkHook false ERROR 0 bad_request JNull) []
       [mkFinished payment [payment] (RejectedWith bad_request)]) /\
  step 3 2000
    (mkConfig (mkHook false ERROR 0 bad_request JNull) []
       [mkFinished payment [payment] (RejectedWith bad_request)])
    CallReset =
  Some (mkConfig (mkHook false IDLE 0 JNull JNull) []
          [mkFinished payment [payment] (RejectedWith bad_request)]).
Proof.
  split; [lia | split; [exact hard_failure_reachable | ]].
  apply (reset_discipline 3 2000 _ ltac:(lia) hard_failure_reachable).
  reflexivity.
Defined.

Lemma error_result_exclusive_witness :
  reachable 3 2000
    (mkConfig (mkHook false ERROR 0 bad_request JNull) []
       [mkFinished payment [payment] (RejectedWith bad_request)]) /\
  ~ (bad_request <> JNull /\ JNull <> JNull).
Proof.
  split; [exact hard_failure_reachable | ].
  apply (error_result_exclusive 3 2000 _ hard_failure_reachable).
Defined.

Lemma payload_passed_through_witness :
  reachable 3 2000 (requesting 3 2000 payment 3 0 []) /\
  Forall (fun t => Forall (fun p => p = argument t) (calls t))
         (running (requesting 3 2000 payment 3 0 [])).
Proof.
  split; [exact first_request_reachable | ].
  apply (payload_passed_through 3 2000 (fun _ => NaN) _ first_request_reachable).
Defined.

Lemma dropped_submit_fulfils_undefined_witness :
  reachable 3 2000 (requesting 3 2000 payment 3 0 []) /\
  run (submit 3 2000 payment) (state (requesting 3 2000 payment 3 0 [])) =
  mkRan (state (requesting 3 2000 payment 3 0 [])) []
        (Settled (Fulfilled JUndefined)).
Proof.
  split; [exact first_request_reachable | ].
  apply (dropped_submit_fulfils_undefined 3 2000 _ payment
           first_request_reachable).
  reflexivity.
Defined.

(** C9, as the design document has it: the controller makes every logical
    submission carry a token of its own.  It does not: [submit] sends what
    it is given, so two submissions of one payload carry one token. *)
Lemma submit_does_not_refresh_token :
  exists c,
    exec 3 2000 start
      [CallSubmit payment; RequestSettles 0 (Resolved receipt);
       CallSubmit payment] = Some c /\
    map token (submissions c) =
      [Some (JString "txn_1"); Some (JString "txn_1")] /\
    ~ tokens_fresh c.
Proof.
  eexists. split; [reflexivity | split; [reflexivity | ]].
  unfold tokens_fresh. intros Hfresh.
  inversion Hfresh as [ | x l Hnotin _]. apply Hnotin. left. reflexivity.
Qed.

(* ================================================================== *)
(** ** The further properties at the form's controller and the mock *)
(* ================================================================== *)

Lemma first_retry_reachable :
  reachable 3 2000 (sleeping 3 2000 payment 2 1 []).
Proof.
  apply (exec_reachable 3 2000
           [CallSubmit payment; RequestSettles 0 (Rejected unavailable)] start).
  - apply reachable_start.
  - reflexivity.
Qed.

Lemma guard_held_iff_suspended_witness :
  reachable 3 2000 (requesting 3 2000 payment 3 0 []) /\
  (inFlightRef (state (requesting 3 2000 payment 3 0 [])) = false <->
   running (requesting 3 2000 payment 3 0 []) = []).
Proof.
  split; [exact first_request_reachable | ].
  apply (guard_held_iff_suspended 3 2000 _ first_request_reachable).
Defined.

Lemma cycle_ends_within_bound_witness :
  reachable 3 2000 (requesting 3 2000 payment 3 0 []) /\
  forallb from_outside
    [RequestSettles 0 (Rejected unavailable); TimerFires 0] = true /\
  exec 3 2000 (requesting 3 2000 payment 3 0 [])
    [RequestSettles 0 (Rejected unavailable); TimerFires 0]
  = Some (requesting 3 2000 payment 2 1 []) /\
  2 <= remaining 3 (requesting 3 2000 payment 3 0 [])
       - remaining 3 (requesting 3 2000 payment 2 1 []).
Proof.
  split; [exact first_request_reachable | ].
  split; [reflexivity | ]. split; [reflexivity | ].
  apply (cycle_ends_within_bound 3 2000 (requesting 3 2000 payment 3 0 [])
           [RequestSettles 0 (Rejected unavailable); TimerFires 0]
           (requesting 3 2000 payment 2 1 []) first_request_reachable);
    reflexivity.
Defined.

Lemma status_tells_the_rest_witness :
  reachable 3 2000 (sleeping 3 2000 payment 2 1 []) /\
  1 <= retryCount (state (sleeping 3 2000 payment 2 1 [])) <= 3.
Proof.
  split; [exact first_retry_reachable | ].
  apply (status_tells_the_rest 3 2000 _ first_retry_reachable).
Defined.

Lemma retryCount_moves_by_one_witness :
  reachable 3 2000 (requesting 3 2000 payment 3 0 []) /\
  step 3 2000 (requesting 3 2000 payment 3 0 [])
    (RequestSettles 0 (Rejected unavailable))
  = Some (sleeping 3 2000 payment 2 1 []) /\
  ((running (sleeping 3 2000 payment 2 1 []) = [] /\ 1 = 0) \/
   (running (sleeping 3 2000 payment 2 1 []) <> [] /\
    RETRYING = RETRYING /\ 1 = 0 + 1)).
Proof.
  split; [exact first_request_reachable | ]. split; [reflexivity | ].
  apply (retryCount_moves_by_one 3 2000 (requesting 3 2000 payment 3 0 [])
           (sleeping 3 2000 payment 2 1 [])
           (RequestSettles 0 (Rejected unavailable))
           first_request_reachable).
  reflexivity.
Defined.

Lemma mock_rejections_are_retryable_witness :
  snd (submitForm 0 payment unlucky) = Settles (Rejected unavailable) /\
  retryable unavailable = true /\
  member unavailable "status" = Some (num 503).
Proof.
  split; [reflexivity | ].
  apply (mock_rejections_are_retryable 0 payment unlucky unavailable).
  left. reflexivity.
Defined.

Lemma mock_answer_echoes_payload_witness :
  snd (submitForm 0 payment lucky)
  = Settles (Resolved (accepted payment "mock-1700000000000-1234")) /\
  exists id fields,
    accepted payment "mock-1700000000000-1234" = accepted payment id /\
    id <> "" /\
    member (accepted payment "mock-1700000000000-1234") "success"
    = Some (JBool true) /\
    member (accepted payment "mock-1700000000000-1234") "data"
    = Some (JObject fields) /\
    lookup "id" fields = Some (JString id) /\
    forall name, name <> "id" ->
      lookup name fields = lookup name (spread payment).
Proof.
  split; [reflexivity | ].
  apply (mock_answer_echoes_payload 0 payment lucky).
  left. reflexivity.
Defined.

Lemma mock_counter_goes_round_witness :
  0 <= 2 <= 2 /\
  0 <= fst (submitForm 2 retry_payment unlucky) <= 2.
Proof.
  split; [lia | ].
  apply (mock_counter_goes_round 2 retry_payment unlucky). lia.
Defined.

Lemma forced_failure_exhausts_witness :
  reachable 3 2000 start /\
  inFlightRef (state start) = false /\
  member error_payment "email" = Some (JString "error@example.com") /\
  Z.of_nat (List.length [lucky; unlucky; lucky]) = 3 /\
  play 3 2000 (mkWorld start 0 None)
    (Submits error_payment lucky
       :: flat_map failed_round [lucky; unlucky; lucky] ++ [Answers]) =
  Some (mkWorld
          (mkConfig (mkHook false ERROR 3 forced_failure JNull) []
             [mkFinished error_payment
                [error_payment; error_payment; error_payment; error_payment]
                (RejectedWith forced_failure)])
          0 None).
Proof.
  split; [apply reachable_start | ].
  split; [reflexivity | ]. split; [reflexivity | ]. split; [reflexivity | ].
  apply (forced_failure_exhausts 3 2000 start 0 None error_payment lucky
           [lucky; unlucky; lucky] (reachable_start 3 2000));
    reflexivity.
Defined.

Lemma hiccups_recover_witness :
  reachable 3 2000 start /\
  inFlightRef (state start) = false /\
  member retry_payment "email" = Some (JString "retry@example.com") /\
  0 <= 0 <= 2 /\ 2 - 0 <= 3 /\
  Z.of_nat (List.length [unlucky; unlucky]) = 2 - 0 /\
  play 3 2000 (mkWorld start 0 None)
    (Submits retry_payment unlucky
       :: flat_map failed_round [unlucky; unlucky] ++ [Answers]) =
  Some (mkWorld
          (mkConfig
             (mkHook false SUCCESS 2 JNull
                (accepted retry_payment "mock-recovered-1700000000000"))
             []
             [mkFinished retry_payment
                [retry_payment; retry_payment; retry_payment]
                (Fulfilled
                   (accepted retry_payment "mock-recovered-1700000000000"))])
          0 None).
Proof.
  split; [apply reachable_start | ].
  split; [reflexivity | ]. split; [reflexivity | ].
  split; [lia | ]. split; [lia | ]. split; [reflexivity | ].
  apply (hiccups_recover 3 2000 start 0 None retry_payment unlucky
           [unlucky; unlucky] (reachable_start 3 2000));
    [reflexivity | reflexivity | lia | lia | reflexivity].
Defined.

Lemma hiccups_outlast_retries_witness :
  reachable 1 2000 start /\
  inFlightRef (state start) = false /\
  member retry_payment "email" = Some (JString "retry@example.com") /\
  0 <= 0 /\ 0 <= 1 /\ 0 + 1 < 2 /\
  Z.of_nat (List.length [unlucky]) = 1 /\
  play 1 2000 (mkWorld start 0 None)
    (Submits retry_payment unlucky
       :: flat_map failed_round [unlucky] ++ [Answers]) =
  Some (mkWorld
          (mkConfig (mkHook false ERROR 1 hiccup JNull) []
             [mkFinished retry_payment [retry_payment; retry_payment]
                (RejectedWith hiccup)])
          2 None).
Proof.
  split; [apply reachable_start | ].
  split; [reflexivity | ]. split; [reflexivity | ].
  split; [lia | ]. split; [lia | ]. split; [lia | ]. split; [reflexivity | ].
  apply (hiccups_outlast_retries 1 2000 start 0 None retry_payment unlucky
           [unlucky] (reachable_start 1 2000));
    [reflexivity | reflexivity | lia | lia | lia | reflexivity].
Defined.



Lemma handleReset_gives_first_page_witness :
  reachable 3 2000
    (mkConfig (mkHook false ERROR 0 bad_request JNull) []
       [mkFinished payment [payment] (RejectedWith bad_request)]) /\
  handleReset 3 2000
    (mkPage
       (mkConfig (mkHook false ERROR 0 bad_request JNull) []
          [mkFinished payment [payment] (RejectedWith bad_request)])
       "test@example.com" "100")
  = Some (mkPage
            (mkConfig mounted []
               [mkFinished payment [payment] (RejectedWith bad_request)])
            "" "").
Proof.
  split; [exact hard_failure_reachable | ].
  apply (handleReset_gives_first_page 3 2000 _ "test@example.com" "100"
           hard_failure_reachable).
  reflexivity.
Defined.

Lemma mock_answer_shows_id_witness :
  snd (submitForm 2 retry_payment lucky)
  = Settles (Resolved (accepted retry_payment "mock-recovered-1700000000000")) /\
  exists id,
    accepted retry_payment "mock-recovered-1700000000000"
    = accepted retry_payment id /\
    render (mkHook false SUCCESS 2 JNull
              (accepted retry_payment "mock-recovered-1700000000000"))
    = SuccessView (Element (JString id)).
Proof.
  split; [reflexivity | ].
  apply (mock_answer_shows_id 2 retry_payment lucky
           (accepted retry_payment "mock-recovered-1700000000000")
           (mkHook false SUCCESS 2 JNull
              (accepted retry_payment "mock-recovered-1700000000000")));
    [left; reflexivity | reflexivity | reflexivity].
Defined.

Lemma call_in_flight_waits_for_one_thing_witness :
  reachable 3 2000 (sleeping 3 2000 payment 2 1 []) /\
  inFlightRef (state (sleeping 3 2000 payment 2 1 [])) = true /\
  ((exists t k,
      running (sleeping 3 2000 payment 2 1 []) = [t] /\
      suspended_at t = AwaitSleep 2000 k /\
      (exists c', step 3 2000 (sleeping 3 2000 payment 2 1 []) (TimerFires 0)
                  = Some c') /\
      (forall o, step 3 2000 (sleeping 3 2000 payment 2 1 [])
                   (RequestSettles 0 o) = None)) \/
   (exists t k,
      running (sleeping 3 2000 payment 2 1 []) = [t] /\
      suspended_at t = AwaitSubmitForm (argument t) k /\
      (forall o, exists c',
         step 3 2000 (sleeping 3 2000 payment 2 1 []) (RequestSettles 0 o)
         = Some c') /\
      step 3 2000 (sleeping 3 2000 payment 2 1 []) (TimerFires 0) = None)).
Proof.
  split; [exact first_retry_reachable | ]. split; [reflexivity | ].
  apply (call_in_flight_waits_for_one_thing 3 2000 _ first_retry_reachable).
  reflexivity.
Defined.

Lemma unsent_calls_fulfil_undefined_witness :
  reachable 3 2000
    (mkConfig (mkHook false ERROR 0 bad_request JNull) []
       [mkFinished payment [payment] (RejectedWith bad_request)]) /\
  Forall (fun f => made f = [] -> settlement f = Fulfilled JUndefined)
    [mkFinished payment [payment] (RejectedWith bad_request)].
Proof.
  split; [exact hard_failure_reachable | ].
  apply (unsent_calls_fulfil_undefined 3 2000 _ hard_failure_reachable).
Defined.

Lemma forced_address_through_the_form_witness :
  reachable 3 2000 start /\
  inFlightRef (state start) = false /\
  "10" <> "" /\
  Z.of_nat (List.length [lucky; lucky; lucky]) = 3 /\
  exists payload w,
    handleSubmit (fun _ => Finite 10) "error@example.com" "10" "txn_2"
    = Some (CallSubmit payload) /\
    play 3 2000 (mkWorld start 0 None)
      (Submits payload lucky
         :: flat_map failed_round [lucky; lucky; lucky] ++ [Answers])
    = Some w /\
    retryAttempt w = 0 /\
    render (state (controller w)) =
    FormView false "Pay Now" None
      (Some (JString "Service Temporarily Unavailable (Forced)")).
Proof.
  assert (Hsum : "10" <> "") by discriminate.
  split; [apply reachable_start | ].
  split; [reflexivity | ]. split; [exact Hsum | ]. split; [reflexivity | ].
  apply (forced_address_through_the_form 3 2000 (fun _ => Finite 10) start 0
           None "10" "txn_2" lucky [lucky; lucky; lucky]
           (reachable_start 3 2000));
    [reflexivity | exact Hsum | reflexivity].
Defined.

Lemma recovering_address_through_the_form_witness :
  reachable 3 2000 start /\
  inFlightRef (state start) = false /\
  "50" <> "" /\
  2 <= 3 /\
  exists payload w,
    handleSubmit (fun _ => Finite 50) "retry@example.com" "50" "txn_3"
    = Some (CallSubmit payload) /\
    play 3 2000 (mkWorld start 0 None)
      [Submits payload unlucky; Answers; Elapses unlucky; Answers;
       Elapses lucky; Answers]
    = Some w /\
    retryAttempt w = 0 /\
    render (state (controller w)) =
    SuccessView
      (Element (JString ("mock-recovered-" ++ decimal (now lucky)))) /\
    optional_member (optional_member (result (state (controller w))) "data")
                    "idempotencyKey" = JString "txn_3" /\
    handleReset 3 2000 (mkPage (controller w) "retry@example.com" "50") =
    Some (mkPage (mkConfig mounted [] (returned (controller w))) "" "").
Proof.
  assert (Hsum : "50" <> "") by discriminate.
  split; [apply reachable_start | ].
  split; [reflexivity | ]. split; [exact Hsum | ]. split; [lia | ].
  apply (recovering_address_through_the_form 3 2000 (fun _ => Finite 50)
           start None "50" "txn_3" unlucky unlucky lucky
           (reachable_start 3 2000));
    [reflexivity | exact Hsum | lia].
Defined.
